(** * Session registry and upstream adapter of the transcription gateway

    A shallow embedding of [stream.py] (the [ConnectionManager], the
    WebSocket endpoint and the management calls) and of
    [yandex_speechkit_v3_service.py] (the streaming recogniser adapter),
    followed by the properties of the registry, the transcript builder,
    the client protocol handler and the adapter.

    Python dictionaries are finite maps ([gmap]); none of the modelled
    effects depends on the iteration order of a dictionary.  Python [int]
    is [Z].  A Python [str] is the string of its UTF-8 bytes. *)

From Stdlib Require Import ZArith QArith Lia Ascii String List.
From stdpp Require Import base option list strings gmap fin_maps fin_sets pretty.

Local Open Scope string_scope.
Local Open Scope Z_scope.
Local Set Warnings "-register-all".

(** ** Python values *)

(** The values a decoded JSON document or a result dictionary can hold.
    A float is carried as the rational it was computed from (nothing here
    depends on rounding); a [datetime] is its clock reading. *)
Inductive pyval :=
  | PNone
  | PBool (b : bool)
  | PInt (z : Z)
  | PFloat (q : Q)
  | PStr (s : string)
  | PBytes (b : list ascii)
  | PTime (t : Z)
  | PList (l : list pyval)
  | PDict (d : gmap string pyval).

(** [bool(v)] *)
Definition truthy (v : pyval) : bool :=
  match v with
  | PNone => false
  | PBool b => b
  | PInt z => negb (z =? 0)%Z
  | PFloat q => negb (Qeq_bool q 0)
  | PStr s => negb (String.eqb s "")
  | PBytes b => match b with [] => false | _ => true end
  | PTime _ => true
  | PList l => match l with [] => false | _ => true end
  | PDict d => negb (bool_decide (size d = 0%nat))
  end.

(** [d.get(k)]: a missing key reads as [None]. *)
Definition py_get (d : gmap string pyval) (k : string) : pyval :=
  default PNone (d !! k).

(** [d.get(k, dflt)] *)
Definition py_get_default (d : gmap string pyval) (k : string) (dflt : pyval) : pyval :=
  default dflt (d !! k).

(** [a or b] *)
Definition py_or (a b : pyval) : pyval := if truthy a then a else b.

(** Exceptions of the modelled code. *)
Inductive exn :=
  | KeyError (k : string)
  | ValueError (msg : string)
  | TypeError (msg : string)
  | AttributeError (msg : string)
  | RuntimeError (msg : string).

Inductive res (A : Type) :=
  | Ok (a : A)
  | Raise (e : exn).
Arguments Ok {A} a.
Arguments Raise {A} e.

#[global] Instance res_ret : MRet res := λ A a, Ok a.
#[global] Instance res_bind : MBind res := λ A B k r,
  match r with
  | Ok a => k a
  | Raise e => Raise e
  end.

(** ** The service the registry keeps per session *)

(** A chunk handed to the transcription service ([StreamChunk]). *)
Record StreamChunk := {
  chunk_id : string;
  audio_data : list ascii;
  chunk_timestamp : Z;
  chunk_is_final : bool;
}.

(** [StreamTranscriptionRequest] *)
Record StreamTranscriptionRequest := {
  req_provider : string;
  req_language : string;
  req_enable_diarization : bool;
  req_sample_rate : Z;
}.

(** Modelled from the spec: the class [StreamTranscriptionService] is
    imported by [stream.py] but its module is not part of the sources.
    The spec gives its interface ([start_session(session_id, request) ->
    bool], [process_audio_chunk(chunk, request, session_id)],
    [end_session(session_id) -> bool], a result-callback registration) and
    requires that on session end the upstream link is closed exactly once,
    a second close being a no-op.  The state keeps the sessions that are
    open upstream, the chunks forwarded, a log of the calls of
    [end_session] and a log with one entry per upstream shutdown actually
    performed. *)
Record StreamTranscriptionService := {
  svc_open : gset string;
  svc_forwarded : list (string * StreamChunk);
  svc_end_calls : list string;
  svc_shutdowns : list string;
  svc_has_callback : bool;
}.

Definition new_service : StreamTranscriptionService :=
  {| svc_open := ∅; svc_forwarded := []; svc_end_calls := []; svc_shutdowns := [];
     svc_has_callback := false |}.

(** Modelled from the spec: [start_session] opens the session upstream and
    reports success. *)
Definition start_session (sid : string) (req : StreamTranscriptionRequest)
    (svc : StreamTranscriptionService) : bool * StreamTranscriptionService :=
  (true,
   {| svc_open := {[sid]} ∪ svc_open svc;
      svc_forwarded := svc_forwarded svc;
      svc_end_calls := svc_end_calls svc;
      svc_shutdowns := svc_shutdowns svc;
      svc_has_callback := svc_has_callback svc |}).

(** Modelled from the spec: [end_session] shuts the upstream link of an
    open session down and returns [True]; on a session that is not open
    (never started, or already ended) it does nothing and returns
    [False].  Every call is noted in [svc_end_calls], every shutdown
    performed in [svc_shutdowns]. *)
Definition end_session (sid : string) (svc : StreamTranscriptionService)
    : bool * StreamTranscriptionService :=
  if decide (sid ∈ svc_open svc) then
    (true,
     {| svc_open := svc_open svc ∖ {[sid]};
        svc_forwarded := svc_forwarded svc;
        svc_end_calls := svc_end_calls svc ++ [sid];
        svc_shutdowns := svc_shutdowns svc ++ [sid];
        svc_has_callback := svc_has_callback svc |})
  else
    (false,
     {| svc_open := svc_open svc;
        svc_forwarded := svc_forwarded svc;
        svc_end_calls := svc_end_calls svc ++ [sid];
        svc_shutdowns := svc_shutdowns svc;
        svc_has_callback := svc_has_callback svc |}).

(** Modelled from the spec: [process_audio_chunk] hands the chunk to the
    upstream adapter of the session. *)
Definition process_audio_chunk (chunk : StreamChunk) (req : StreamTranscriptionRequest)
    (sid : string) (svc : StreamTranscriptionService) : StreamTranscriptionService :=
  {| svc_open := svc_open svc;
     svc_forwarded := svc_forwarded svc ++ [(sid, chunk)];
     svc_end_calls := svc_end_calls svc;
     svc_shutdowns := svc_shutdowns svc;
     svc_has_callback := svc_has_callback svc |}.

Definition set_result_callback (svc : StreamTranscriptionService) : StreamTranscriptionService :=
  {| svc_open := svc_open svc;
     svc_forwarded := svc_forwarded svc;
     svc_end_calls := svc_end_calls svc;
     svc_shutdowns := svc_shutdowns svc;
     svc_has_callback := true |}.

(** ** ConnectionManager *)

(** The metadata dictionary of a session
    ([{"created_at": ..., "status": ..., "chunks_processed": ...}]). *)
Record SessionMeta := {
  created_at : Z;
  status : string;
  chunks_processed : Z;
}.

(** A WebSocket is named by a number; what was sent on it is kept in the
    network state further down. *)
Record ConnectionManager := {
  active_connections : gmap string (gmap string nat);
  client_channels : gmap string (gmap string Z);
  chunk_channel_map : gmap string (gmap string Z);
  transcription_sessions : gmap string SessionMeta;
  session_results : gmap string (list (gmap string pyval));
  services : gmap string StreamTranscriptionService;
}.

(** [ConnectionManager.__init__] *)
Definition init : ConnectionManager :=
  {| active_connections := ∅; client_channels := ∅; chunk_channel_map := ∅;
     transcription_sessions := ∅; session_results := ∅; services := ∅ |}.

Definition with_active_connections (v : gmap string (gmap string nat))
    (m : ConnectionManager) : ConnectionManager :=
  {| active_connections := v; client_channels := client_channels m;
     chunk_channel_map := chunk_channel_map m;
     transcription_sessions := transcription_sessions m;
     session_results := session_results m; services := services m |}.

Definition with_client_channels (v : gmap string (gmap string Z))
    (m : ConnectionManager) : ConnectionManager :=
  {| active_connections := active_connections m; client_channels := v;
     chunk_channel_map := chunk_channel_map m;
     transcription_sessions := transcription_sessions m;
     session_results := session_results m; services := services m |}.

Definition with_chunk_channel_map (v : gmap string (gmap string Z))
    (m : ConnectionManager) : ConnectionManager :=
  {| active_connections := active_connections m;
     client_channels := client_channels m; chunk_channel_map := v;
     transcription_sessions := transcription_sessions m;
     session_results := session_results m; services := services m |}.

Definition with_transcription_sessions (v : gmap string SessionMeta)
    (m : ConnectionManager) : ConnectionManager :=
  {| active_connections := active_connections m;
     client_channels := client_channels m;
     chunk_channel_map := chunk_channel_map m; transcription_sessions := v;
     session_results := session_results m; services := services m |}.

Definition with_session_results (v : gmap string (list (gmap string pyval)))
    (m : ConnectionManager) : ConnectionManager :=
  {| active_connections := active_connections m;
     client_channels := client_channels m;
     chunk_channel_map := chunk_channel_map m;
     transcription_sessions := transcription_sessions m;
     session_results := v; services := services m |}.

Definition with_services (v : gmap string StreamTranscriptionService)
    (m : ConnectionManager) : ConnectionManager :=
  {| active_connections := active_connections m;
     client_channels := client_channels m;
     chunk_channel_map := chunk_channel_map m;
     transcription_sessions := transcription_sessions m;
     session_results := session_results m; services := v |}.

(** [d[k]] on a dictionary of the registry. *)
Definition py_index {V} (d : gmap string V) (k : string) : res V :=
  match d !! k with
  | Some v => Ok v
  | None => Raise (KeyError k)
  end.

(** The loop [ch = 1; while ch in used: ch += 1] of [connect], entered at
    [ch] with [fuel] iterations left. *)
Fixpoint free_channel_loop (used : gset Z) (fuel : nat) (ch : Z) : option Z :=
  match fuel with
  | O => None
  | S fuel' =>
      if decide (ch ∈ used) then free_channel_loop used fuel' (ch + 1)
      else Some ch
  end.

(** The loop leaves within [size used + 1] tests of its condition
    ([free_channel_loop_total] below), so the default is never taken. *)
Definition free_channel (used : gset Z) : Z :=
  default 1 (free_channel_loop used (S (size used)) 1).

(** The first lines of [connect]: the containers of the session are
    created where they are missing. *)
Definition init_containers (session_id : string) (now : Z) (m : ConnectionManager)
    : ConnectionManager :=
  let m :=
    if decide (is_Some (active_connections m !! session_id)) then m
    else
      with_chunk_channel_map (<[session_id := ∅]> (chunk_channel_map m))
        (with_client_channels (<[session_id := ∅]> (client_channels m))
           (with_active_connections (<[session_id := ∅]> (active_connections m)) m)) in
  let m :=
    if decide (is_Some (transcription_sessions m !! session_id)) then m
    else
      with_transcription_sessions
        (<[session_id := {| created_at := now; status := "connected";
                            chunks_processed := 0 |}]> (transcription_sessions m)) m in
  if decide (is_Some (session_results m !! session_id)) then m
  else with_session_results (<[session_id := []]> (session_results m)) m.

(** [ConnectionManager.connect]; returns the client id, or the exception
    raised, and the registry as the call left it.  The call
    [websocket.accept()] acts on the socket only and is part of the
    endpoint below. *)
Definition connect (websocket : nat) (session_id : string) (channel : option Z)
    (now : Z) (m : ConnectionManager) : res string * ConnectionManager :=
  let m := init_containers session_id now m in
  match active_connections m !! session_id with
  | None => (Raise (KeyError session_id), m)
  | Some conns =>
      let next_idx := S (size conns) in
      let client_id := "c" +:+ pretty next_idx in
      let channel :=
        match channel with
        | Some ch => Ok ch
        | None =>
            chans ← py_index (client_channels m) session_id;
            Ok (free_channel (map_img chans))
        end in
      match channel with
      | Raise e => (Raise e, m)
      | Ok channel =>
          let m := with_active_connections
                     (<[session_id := <[client_id := websocket]> conns]>
                        (active_connections m)) m in
          match client_channels m !! session_id with
          | None => (Raise (KeyError session_id), m)
          | Some chans =>
              (Ok client_id,
               with_client_channels
                 (<[session_id := <[client_id := channel]> chans]> (client_channels m)) m)
          end
      end
  end.

(** [ConnectionManager.disconnect] *)
Definition disconnect (session_id : string) (client_id : option string)
    (m : ConnectionManager) : ConnectionManager :=
  match client_id with
  | Some cid =>
      let m :=
        match active_connections m !! session_id with
        | Some conns =>
            with_active_connections
              (<[session_id := delete cid conns]> (active_connections m)) m
        | None => m
        end in
      let m :=
        match client_channels m !! session_id with
        | Some chans =>
            with_client_channels
              (<[session_id := delete cid chans]> (client_channels m)) m
        | None => m
        end in
      match active_connections m !! session_id with
      | Some conns =>
          if decide (size conns = 0%nat) then
            with_client_channels (delete session_id (client_channels m))
              (with_active_connections (delete session_id (active_connections m)) m)
          else m
      | None => m
      end
  | None =>
      let m := with_active_connections (delete session_id (active_connections m)) m in
      with_client_channels (delete session_id (client_channels m)) m
  end.

(** [ConnectionManager.add_transcription_result] *)
Definition add_transcription_result (session_id : string) (result : gmap string pyval)
    (m : ConnectionManager) : ConnectionManager :=
  let log := default [] (session_results m !! session_id) in
  with_session_results (<[session_id := (log ++ [result])%list]> (session_results m)) m.

(** [ConnectionManager.get_session_results] *)
Definition get_session_results (session_id : string) (include_partial : bool)
    (m : ConnectionManager) : option (list (gmap string pyval)) :=
  match session_results m !! session_id with
  | None => None
  | Some results =>
      if include_partial then Some results
      else Some (List.filter (λ r, truthy (py_get_default r "is_final" (PBool false))) results)
  end.

(** [" ".join(texts)]; an item that is not a string raises. *)
Fixpoint space_join (texts : list pyval) : res string :=
  match texts with
  | [] => Ok ""
  | t :: rest =>
      match t with
      | PStr s =>
          match rest with
          | [] => Ok s
          | _ => tail ← space_join rest; Ok (s +:+ " " +:+ tail)
          end
      | _ => Raise (TypeError "sequence item: expected str instance")
      end
  end.

Section Transcript.

(** [json.dumps(results, default=str, ensure_ascii=False, indent=2)]; the
    serialiser is outside the modelled code. *)
Variable json_dumps : list (gmap string pyval) → string.

(** [ConnectionManager.get_session_transcript] *)
Definition get_session_transcript (session_id : string) (format_type : string)
    (m : ConnectionManager) : res (option string) :=
  match get_session_results session_id false m with
  | None => Ok None
  | Some [] => Ok None
  | Some results =>
      if String.eqb format_type "text" then
        let texts := List.map (λ r, py_get r "text")
                       (List.filter (λ r, truthy (py_get r "text")) results) in
        s ← space_join texts; Ok (Some s)
      else if String.eqb format_type "json" then Ok (Some (json_dumps results))
      else Ok None
  end.

End Transcript.

(** [ConnectionManager.get_client_channel] *)
Definition get_client_channel (session_id client_id : string) (m : ConnectionManager)
    : option Z :=
  default ∅ (client_channels m !! session_id) !! client_id.

(** Clients connecting one after the other to one session, none asking
    for a channel; each is given as its socket and the time it connects.
    The result lists the channel each was assigned, as the endpoint reads
    it back with [get_client_channel]. *)
Fixpoint connect_each (session_id : string) (clients : list (nat * Z))
    (m : ConnectionManager) : res (list Z * ConnectionManager) :=
  match clients with
  | [] => Ok ([], m)
  | (websocket, now) :: rest =>
      match connect websocket session_id None now m with
      | (Raise e, _) => Raise e
      | (Ok client_id, m) =>
          ch ← match get_client_channel session_id client_id m with
               | Some ch => Ok ch
               | None => Raise (KeyError client_id)
               end;
          '(chs, m) ← connect_each session_id rest m;
          Ok (ch :: chs, m)
      end
  end.

(** [ConnectionManager.map_chunk_channel] *)
Definition map_chunk_channel (session_id chunk : string) (channel : Z)
    (m : ConnectionManager) : ConnectionManager :=
  let cmap := default ∅ (chunk_channel_map m !! session_id) in
  with_chunk_channel_map (<[session_id := <[chunk := channel]> cmap]> (chunk_channel_map m)) m.

(** [ConnectionManager.resolve_channel_for_chunk] *)
Definition resolve_channel_for_chunk (session_id chunk : string) (m : ConnectionManager)
    : option Z :=
  default ∅ (chunk_channel_map m !! session_id) !! chunk.

(** [ConnectionManager.has_active_clients] *)
Definition has_active_clients (session_id : string) (m : ConnectionManager) : bool :=
  match active_connections m !! session_id with
  | Some conns => negb (bool_decide (size conns = 0%nat))
  | None => false
  end.

(** [ConnectionManager.get_service] *)
Definition get_service (session_id : string) (m : ConnectionManager)
    : option StreamTranscriptionService :=
  services m !! session_id.

(** [ConnectionManager.set_service] *)
Definition set_service (session_id : string) (service : StreamTranscriptionService)
    (m : ConnectionManager) : ConnectionManager :=
  with_services (<[session_id := service]> (services m)) m.

(** The calls that change the registry, and a run of such calls. *)
Inductive RegistryCall :=
  | CallConnect (websocket : nat) (session_id : string) (channel : option Z) (now : Z)
  | CallDisconnect (session_id : string) (client_id : option string)
  | CallAddResult (session_id : string) (result : gmap string pyval)
  | CallMapChunk (session_id chunk : string) (channel : Z)
  | CallSetService (session_id : string) (service : StreamTranscriptionService).

Definition call (c : RegistryCall) (m : ConnectionManager) : ConnectionManager :=
  match c with
  | CallConnect websocket session_id channel now =>
      (connect websocket session_id channel now m).2
  | CallDisconnect session_id client_id => disconnect session_id client_id m
  | CallAddResult session_id result => add_transcription_result session_id result m
  | CallMapChunk session_id chunk channel => map_chunk_channel session_id chunk channel m
  | CallSetService session_id service => set_service session_id service m
  end.

Definition calls (cs : list RegistryCall) (m : ConnectionManager) : ConnectionManager :=
  foldl (λ m c, call c m) m cs.

(** ** Sockets and outbound messages *)

(** The dictionaries the endpoint serialises with [json.dumps] and sends. *)
Inductive OutMsg :=
  | connection_established (session_id provider language : string)
      (enable_diarization : bool) (channel : option Z)
  | transcription_result (chunk : pyval) (text : string)
      (is_final confidence speaker_id : pyval) (timestamp : Z)
  | session_ended (session_id : string) (chunks : Z)
  | pong (timestamp : Z)
  | error (message : string).

Record Socket := {
  sock_accepted : bool;
  sock_closed : bool;
  sock_sent : list OutMsg;
}.

Definition fresh_socket : Socket :=
  {| sock_accepted := false; sock_closed := false; sock_sent := [] |}.

(** [websocket.accept()] *)
Definition accept (ws : nat) (net : gmap nat Socket) : gmap nat Socket :=
  let s := default fresh_socket (net !! ws) in
  <[ws := {| sock_accepted := true; sock_closed := sock_closed s;
             sock_sent := sock_sent s |}]> net.

(** [websocket.send_text(payload)]: raises on a socket that is not open. *)
Definition send_text (ws : nat) (payload : OutMsg) (net : gmap nat Socket)
    : res (gmap nat Socket) :=
  match net !! ws with
  | Some s =>
      if sock_accepted s && negb (sock_closed s) then
        Ok (<[ws := {| sock_accepted := true; sock_closed := false;
                       sock_sent := sock_sent s ++ [payload] |}]> net)
      else Raise (RuntimeError "WebSocket is not connected")
  | None => Raise (RuntimeError "WebSocket is not connected")
  end.

(** One turn of a broadcast loop: [try: await ws.send_text(..) except: log]. *)
Definition try_send (payload : OutMsg) (net : gmap nat Socket) (ws : nat)
    : gmap nat Socket :=
  match send_text ws payload net with
  | Ok net' => net'
  | Raise _ => net
  end.

(** [for ws in self.active_connections.get(session_id, {}).values(): ...] *)
Definition broadcast (payload : OutMsg) (session_id : string) (m : ConnectionManager)
    (net : gmap nat Socket) : gmap nat Socket :=
  foldl (try_send payload) net
    ((map_to_list (default ∅ (active_connections m !! session_id))).*2).

(** [ConnectionManager.send_personal_message] *)
Definition send_personal_message (message : OutMsg) (session_id : string)
    (client_id : option string) (m : ConnectionManager) (net : gmap nat Socket)
    : gmap nat Socket :=
  match client_id with
  | Some cid =>
      match default ∅ (active_connections m !! session_id) !! cid with
      | Some ws => try_send message net ws
      | None => net
      end
  | None => broadcast message session_id m net
  end.

(** ** The streaming adapter ([YandexSpeechKitV3Service]) *)

(** The three settings the adapter reads with [getattr(.., None)]. *)
Record Settings := {
  yandex_api_key : option string;
  yandex_iam_token : option string;
  yandex_folder_id : option string;
}.

(** Truth value of an optional string setting. *)
Definition is_set (o : option string) : bool :=
  match o with
  | Some s => negb (String.eqb s "")
  | None => false
  end.

(** [YandexSpeechKitV3Service._build_auth_metadata] *)
Definition _build_auth_metadata (settings : Settings) : res (list (string * string)) :=
  if is_set (yandex_api_key settings) then
    Ok [("authorization", "Api-Key " +:+ default "" (yandex_api_key settings))]
  else if is_set (yandex_iam_token settings) then
    let metadata := [("authorization", "Bearer " +:+ default "" (yandex_iam_token settings))] in
    if is_set (yandex_folder_id settings) then
      Ok (metadata ++ [("x-folder-id", default "" (yandex_folder_id settings))])%list
    else Ok metadata
  else Raise (ValueError "authorization is not configured: yandex_api_key or yandex_iam_token is required").

Inductive AudioEncoding := LINEAR16_PCM.
Inductive TextNormalization := TEXT_NORMALIZATION_ENABLED.
Inductive RestrictionType := WHITELIST.
Inductive AudioProcessingType := REAL_TIME.

(** [StreamingOptions(recognition_model=RecognitionModelOptions(..))] *)
Record StreamingOptions := {
  audio_encoding : AudioEncoding;
  sample_rate_hertz : Z;
  audio_channel_count : Z;
  text_normalization : TextNormalization;
  profanity_filter : bool;
  literature_text : bool;
  restriction_type : RestrictionType;
  language_code : list string;
  audio_processing_type : AudioProcessingType;
}.

(** The events of the protobuf message [StreamingRequest].  The adapter
    builds the first two only; the message also has a silence event and an
    end-of-utterance event. *)
Inductive StreamingRequest :=
  | session_options_request (o : StreamingOptions)
  | chunk_request (data : list ascii)
  | silence_chunk_request (duration_ms : Z)
  | eou_request.

Inductive GenEvent :=
  | Yield (r : StreamingRequest)
  | LogInfo (line : string).

(** The loop [async for chunk in audio_stream] of [request_generator],
    with [sent] chunks sent so far. *)
Fixpoint audio_loop (sent : nat) (audio_stream : list (list ascii)) : list GenEvent :=
  match audio_stream with
  | [] =>
      [LogInfo ("request_generator: completed after sending " +:+ pretty sent +:+ " chunks")]
  | chunk :: rest =>
      match chunk with
      | [] => audio_loop sent rest
      | _ =>
          let sent := S sent in
          ((if (sent mod 50 =? 0)%nat
            then [LogInfo ("request_generator: sent " +:+ pretty sent +:+ " audio chunks")]
            else []) ++ Yield (chunk_request chunk) :: audio_loop sent rest)%list
      end
  end.

(** [request_generator] of [recognize_stream] *)
Definition request_generator (session_options : StreamingOptions)
    (audio_stream : list (list ascii)) : list GenEvent :=
  Yield (session_options_request session_options) :: audio_loop 0 audio_stream.

(** The requests a run of the generator hands to the RPC, in order. *)
Fixpoint yielded (evs : list GenEvent) : list StreamingRequest :=
  match evs with
  | [] => []
  | Yield r :: rest => r :: yielded rest
  | LogInfo _ :: rest => yielded rest
  end.

(** ** Text

    A Python [str] is carried as the string of its UTF-8 bytes.  What
    Python decides character by character ([str.strip], [str.isdigit],
    [int]) is decided here on the code points, with the character tables
    of Unicode 14. *)

(** The payload of a continuation byte. *)
Definition cont (b : ascii) : N := (N_of_ascii b mod 64)%N.

(** The code points a sequence of UTF-8 bytes encodes. *)
Fixpoint code_points (l : list ascii) : list N :=
  match l with
  | [] => []
  | b0 :: r0 =>
      let n0 := N_of_ascii b0 in
      if (n0 <? 128)%N then n0 :: code_points r0
      else if (n0 <? 224)%N then
        match r0 with
        | b1 :: r1 => ((n0 mod 32) * 64 + cont b1)%N :: code_points r1
        | _ => [n0]
        end
      else if (n0 <? 240)%N then
        match r0 with
        | b1 :: b2 :: r2 =>
            ((n0 mod 16) * 4096 + cont b1 * 64 + cont b2)%N :: code_points r2
        | _ => [n0]
        end
      else
        match r0 with
        | b1 :: b2 :: b3 :: r3 =>
            ((n0 mod 8) * 262144 + cont b1 * 4096 + cont b2 * 64 + cont b3)%N
            :: code_points r3
        | _ => [n0]
        end
  end.

(** The UTF-8 bytes of a code point. *)
Definition utf8 (c : N) : list ascii :=
  (if c <? 128 then [ascii_of_N c]
   else if c <? 2048 then
     [ascii_of_N (192 + c / 64); ascii_of_N (128 + c mod 64)]
   else if c <? 65536 then
     [ascii_of_N (224 + c / 4096); ascii_of_N (128 + (c / 64) mod 64);
      ascii_of_N (128 + c mod 64)]
   else
     [ascii_of_N (240 + c / 262144); ascii_of_N (128 + (c / 4096) mod 64);
      ascii_of_N (128 + (c / 64) mod 64); ascii_of_N (128 + c mod 64)])%N.

Definition between (lo hi c : N) : bool := ((lo <=? c) && (c <=? hi))%N.

(** The characters [str.isspace] holds of, which [str.strip] removes. *)
Definition is_space (c : N) : bool :=
  between 9 13 c || between 28 32 c || (c =? 133)%N || (c =? 160)%N
  || (c =? 5760)%N || between 8192 8202 c || between 8232 8233 c
  || (c =? 8239)%N || (c =? 8287)%N || (c =? 12288)%N.

Fixpoint lstrip (space : N → bool) (l : list N) : list N :=
  match l with
  | c :: rest => if space c then lstrip space rest else l
  | [] => []
  end.

(** The characters between the leading and the trailing [space]s. *)
Definition strip (space : N → bool) (l : list N) : list N :=
  rev (lstrip space (rev (lstrip space l))).

(** [s.strip()] *)
Definition py_strip (s : string) : string :=
  string_of_list_ascii
    (flat_map utf8 (strip is_space (code_points (list_ascii_of_string s)))).

(** The white space [bytes.strip] removes. *)
Definition is_bytes_space (c : ascii) : bool :=
  let n := N_of_ascii c in between 9 13 n || (n =? 32)%N.

Fixpoint bytes_lstrip (l : list ascii) : list ascii :=
  match l with
  | c :: rest => if is_bytes_space c then bytes_lstrip rest else l
  | [] => []
  end.

(** [b.strip()] on bytes *)
Definition bytes_strip (b : list ascii) : list ascii :=
  rev (bytes_lstrip (rev (bytes_lstrip b))).

Record Word := {
  word_text : string;
  start_time_ms : Z;
  end_time_ms : Z;
}.

Record Alternative := {
  alt_text : string;
  alt_confidence : pyval;
  alt_words : list Word;
}.

(** A [StreamingResponse]: the alternatives of its [partial], [final] and
    [final_refinement.normalized_text] parts (empty when the part is
    absent). *)
Record StreamingResponse := {
  partial : list Alternative;
  final : list Alternative;
  final_refinement : list Alternative;
}.

(** Milliseconds divided by [1000.0]; the quotient is kept exact. *)
Definition seconds (ms : Z) : pyval := PFloat (Qmake ms 1000).

Definition word_dict (w : Word) : pyval :=
  PDict (<["word" := PStr (word_text w)]>
        (<["start" := seconds (start_time_ms w)]>
        (<["end" := seconds (end_time_ms w)]> ∅))).

Definition result_record (type : string) (alt : Alternative) (words : list pyval)
    (is_final : bool) : gmap string pyval :=
  <["type" := PStr type]>
  (<["text" := PStr (alt_text alt)]>
  (<["confidence" := alt_confidence alt]>
  (<["words" := PList words]>
  (<["provider" := PStr "yandex_v3"]>
  (<["mode" := PStr "streaming"]>
  (<["is_final" := PBool is_final]> ∅)))))).

Definition has_text (alt : Alternative) : bool :=
  negb (String.eqb (py_strip (alt_text alt)) "").

(** [YandexSpeechKitV3Service._process_single_response] *)
Definition _process_single_response (response : StreamingResponse)
    : list (gmap string pyval) :=
  (List.map (λ alt, result_record "partial" alt (List.map word_dict (alt_words alt)) false)
     (List.filter has_text (partial response))
   ++ List.map (λ alt, result_record "final" alt (List.map word_dict (alt_words alt)) true)
        (List.filter has_text (final response))
   ++ List.map (λ alt, result_record "final_refinement" alt [] true)
        (List.filter has_text (final_refinement response)))%list.

(** How a call on the RPC channel can fail: [grpc.RpcError] with its code
    name and details, or any other exception with its text. *)
Inductive Failure :=
  | RpcError (code_name : string) (details : pyval)
  | OtherError (text : string).

(** What the backend does during one run: whether [channel_ready] fails,
    the responses it sends, and whether the response stream then breaks. *)
Record Upstream := {
  ready_failure : option Failure;
  responses : list StreamingResponse;
  stream_failure : option Failure;
}.

(** The import guards at the top of the module. *)
Record Runtime := {
  GRPC_AVAILABLE : bool;
  RecognizerStub_imported : bool;
  StreamingRequest_imported : bool;
}.

Definition error_record (fields : list (string * pyval)) : gmap string pyval :=
  <["type" := PStr "error"]>
  (<["provider" := PStr "yandex_v3"]>
  (<["mode" := PStr "streaming"]> (list_to_map fields))).

Definition failure_record (f : Failure) : gmap string pyval :=
  match f with
  | RpcError code details =>
      error_record [("error", PStr ("gRPC error: " +:+ code)); ("details", details)]
  | OtherError text => error_record [("error", PStr text)]
  end.

Definition exn_text (e : exn) : string :=
  match e with
  | KeyError k => "'" +:+ k +:+ "'"
  | ValueError s | TypeError s | AttributeError s | RuntimeError s => s
  end.

(** What one run of [recognize_stream] did: the records it yielded, the
    warnings it logged, whether the channel was opened and how often it
    was closed, and the events of the request generator it handed to the
    RPC. *)
Record StreamRun := {
  records : list (gmap string pyval);
  warnings : list string;
  channel_opened : bool;
  channel_closed : nat;
  request_events : list GenEvent;
}.

(** [YandexSpeechKitV3Service.recognize_stream] *)
Definition recognize_stream (rt : Runtime) (settings : Settings) (up : Upstream)
    (audio_stream : list (list ascii)) (language : string)
    (enable_diarization : bool) (sample_rate : Z) : StreamRun :=
  if negb (GRPC_AVAILABLE rt) || negb (RecognizerStub_imported rt)
     || negb (StreamingRequest_imported rt) then
    {| records := [error_record [("error", PStr "gRPC/Protobuf not available");
                                 ("details", PStr "install grpcio and the protobuf package")]];
       warnings := []; channel_opened := false; channel_closed := 0;
       request_events := [] |}
  else
    let w1 :=
      if negb (is_set (yandex_folder_id settings)) && negb (is_set (yandex_api_key settings))
      then ["yandex_folder_id is not set; Bearer requires x-folder-id"] else [] in
    match _build_auth_metadata settings with
    | Raise e =>
        {| records := [error_record [("error", PStr "Authorization failed");
                                     ("details", PStr (exn_text e))]];
           warnings := w1; channel_opened := false; channel_closed := 0;
           request_events := [] |}
    | Ok metadata =>
        let language := if String.eqb language "ru" then "ru-RU" else language in
        let language := if String.eqb language "en" then "en-US" else language in
        let allowed := bool_decide (sample_rate ∈ [8000; 16000; 48000]) in
        let w2 := if allowed then [] else ["Unsupported sample_rate; falling back to 16000"] in
        let sample_rate := if allowed then sample_rate else 16000 in
        let session_options :=
          {| audio_encoding := LINEAR16_PCM;
             sample_rate_hertz := sample_rate;
             audio_channel_count := 1;
             text_normalization := TEXT_NORMALIZATION_ENABLED;
             profanity_filter := true;
             literature_text := false;
             restriction_type := WHITELIST;
             language_code := [language];
             audio_processing_type := REAL_TIME |} in
        match ready_failure up with
        | Some f =>
            {| records := [failure_record f]; warnings := (w1 ++ w2)%list;
               channel_opened := true; channel_closed := 1;
               request_events := [] |}
        | None =>
            let parsed := List.concat (List.map _process_single_response (responses up)) in
            {| records :=
                 match stream_failure up with
                 | Some f => (parsed ++ [failure_record f])%list
                 | None => parsed
                 end;
               warnings := (w1 ++ w2)%list;
               channel_opened := true; channel_closed := 1;
               request_events := request_generator session_options audio_stream |}
        end
    end.

(** ** String helpers of the endpoint *)

(** The code points of the digit zero of every decimal script; the nine
    code points after each are its digits one to nine. *)
Definition decimal_zeros : list N :=
  [48; 1632; 1776; 1984; 2406; 2534; 2662; 2790; 2918; 3046; 3174; 3302;
   3430; 3558; 3664; 3792; 3872; 4160; 4240; 6112; 6160; 6470; 6608; 6784;
   6800; 6992; 7088; 7232; 7248; 42528; 43216; 43264; 43472; 43504; 43600;
   44016; 65296; 66720; 68912; 69734; 69872; 69942; 70096; 70384; 70736;
   70864; 71248; 71360; 71472; 71904; 72016; 72784; 73040; 73120; 92768;
   92864; 93008; 120782; 120792; 120802; 120812; 120822; 123200; 123632;
   125264; 130032]%N.

(** The digit a decimal character stands for. *)
Definition decimal_value (c : N) : option Z :=
  (λ zero, Z.of_N (c - zero)) <$> List.find (λ zero, between zero (zero + 9) c) decimal_zeros.

Definition is_decimal (c : N) : bool :=
  match decimal_value c with Some _ => true | None => false end.

(** The digit characters that are not decimal: superscripts, subscripts,
    circled and parenthesised digits and the like. *)
Definition other_digits : list (N * N) :=
  [(178, 179); (185, 185); (4969, 4977); (6618, 6618); (8304, 8304);
   (8308, 8313); (8320, 8329); (9312, 9320); (9332, 9340); (9352, 9360);
   (9450, 9450); (9461, 9469); (9471, 9471); (10102, 10110);
   (10112, 10120); (10122, 10130); (68160, 68163); (69216, 69224);
   (69714, 69722); (127232, 127242)]%N.

(** The characters [str.isdigit] holds of. *)
Definition is_digit (c : N) : bool :=
  is_decimal c || existsb (λ r, between r.1 r.2 c) other_digits.

(** [s.isdigit()] *)
Definition isdigit (s : string) : bool :=
  match code_points (list_ascii_of_string s) with
  | [] => false
  | l => forallb is_digit l
  end.

(** Decimal digits, with the single underscores [int] allows between
    them, read from the left onto [acc]; [sep] tells that the previous
    character was a digit. *)
Fixpoint digits_value (l : list N) (acc : Z) (sep : bool) : option Z :=
  match l with
  | [] => if sep then Some acc else None
  | c :: rest =>
      match decimal_value c with
      | Some d => digits_value rest (acc * 10 + d) true
      | None =>
          if (c =? 95)%N && sep then
            match rest with
            | [] => None
            | _ => digits_value rest acc false
            end
          else None
      end
  end.

(** The white space [int] skips around a number: the characters of
    [str.isspace] but for the four ASCII separators 28 to 31. *)
Definition is_int_space (c : N) : bool := is_space c && negb (between 28 31 c).

(** The most digits [int] converts (the interpreter's default limit). *)
Definition max_str_digits : nat := 4300.

(** [int(s)] on a string: surrounding white space, an optional sign,
    decimal digits of any script; [None] where [int] raises
    [ValueError]. *)
Definition py_int (s : string) : option Z :=
  let l := strip is_int_space (code_points (list_ascii_of_string s)) in
  if (max_str_digits <? length (List.filter is_decimal l))%nat then None
  else
    match l with
    | [] => None
    | c :: rest =>
        if (c =? 45)%N then Z.opp <$> digits_value rest 0 false
        else if (c =? 43)%N then digits_value rest 0 false
        else digits_value l 0 false
    end.

(** [s.lower()] where the result is compared with ["true"]: the ASCII
    capitals are lowered and every other byte is kept.  Outside ASCII only
    U+0130 and U+212A have a lower case with an ASCII letter in it ([i]
    and [k]), so keeping the bytes of the other characters does not
    change the comparison. *)
Definition lower_char (c : ascii) : ascii :=
  let n := nat_of_ascii c in
  if ((65 <=? n) && (n <=? 90))%nat then ascii_of_nat (n + 32) else c.

Definition py_lower (s : string) : string :=
  string_of_list_ascii (List.map lower_char (list_ascii_of_string s)).

(** [s.split("-", 1)[0]] *)
Fixpoint before_dash (l : list ascii) : list ascii :=
  match l with
  | [] => []
  | c :: rest => if Ascii.eqb c "-"%char then [] else c :: before_dash rest
  end.

(** ["-" in s] *)
Definition has_dash (s : string) : bool :=
  existsb (λ c, Ascii.eqb c "-"%char) (list_ascii_of_string s).

(** The channel a chunk id of the form [ch<N>-<rest>] names:
    [int(chunk_id.split("-", 1)[0][2:])] under its guard, [None] when the
    guard fails or [int] raises. *)
Definition channel_of_chunk_id (chunk : string) : option Z :=
  if String.prefix "ch" chunk && has_dash chunk then
    py_int (string_of_list_ascii (drop 2 (before_dash (list_ascii_of_string chunk))))
  else None.

Definition hex_value (c : ascii) : option Z :=
  let n := nat_of_ascii c in
  if ((48 <=? n) && (n <=? 57))%nat then Some (Z.of_nat n - 48)
  else if ((97 <=? n) && (n <=? 102))%nat then Some (Z.of_nat n - 87)
  else if ((65 <=? n) && (n <=? 70))%nat then Some (Z.of_nat n - 55)
  else None.

(** The white space [bytes.fromhex] skips between bytes. *)
Definition is_hex_space (c : ascii) : bool :=
  let n := nat_of_ascii c in (((9 <=? n) && (n <=? 13)) || (n =? 32))%nat.

(** [bytes.fromhex(s)] *)
Fixpoint fromhex (l : list ascii) : res (list ascii) :=
  match l with
  | [] => Ok []
  | c :: rest =>
      if is_hex_space c then fromhex rest
      else
        match rest with
        | d :: rest' =>
            match hex_value c, hex_value d with
            | Some hi, Some lo =>
                tail ← fromhex rest';
                Ok (ascii_of_nat (Z.to_nat (hi * 16 + lo)) :: tail)
            | _, _ => Raise (ValueError "non-hexadecimal number found in fromhex() arg")
            end
        | [] => Raise (ValueError "non-hexadecimal number found in fromhex() arg")
        end
  end.


(** ** The WebSocket endpoint *)

(** The registry (the module-level [manager]) and the sockets. *)
Record World := {
  manager : ConnectionManager;
  net : gmap nat Socket;
}.

(** Code that changes the world and may raise; what it changed before
    raising stays changed. *)
Definition M (A : Type) : Type := World → res A * World.

#[global] Instance M_ret : MRet M := λ A a w, (Ok a, w).
#[global] Instance M_bind : MBind M := λ A B k c w,
  match c w with
  | (Ok a, w') => k a w'
  | (Raise e, w') => (Raise e, w')
  end.

Definition raise {A} (e : exn) : M A := λ w, (Raise e, w).
Definition lift {A} (r : res A) : M A := λ w, (r, w).
Definition read {A} (f : ConnectionManager → A) : M A := λ w, (Ok (f (manager w)), w).
Definition update (f : ConnectionManager → ConnectionManager) : M unit :=
  λ w, (Ok tt, {| manager := f (manager w); net := net w |}).
Definition update_or_raise (f : ConnectionManager → res ConnectionManager) : M unit :=
  λ w, match f (manager w) with
       | Ok m => (Ok tt, {| manager := m; net := net w |})
       | Raise e => (Raise e, w)
       end.
(** [manager.transcription_sessions[sid]] *)
Definition session_meta (session_id : string) : M SessionMeta :=
  λ w, (py_index (transcription_sessions (manager w)) session_id, w).
Definition send (message : OutMsg) (session_id : string) (client_id : option string)
    : M unit :=
  λ w, (Ok tt, {| manager := manager w;
                  net := send_personal_message message session_id client_id
                           (manager w) (net w) |}).

(** The local variables of one run of [websocket_transcription_endpoint]. *)
Record Handler := {
  h_websocket : nat;
  h_session_id : string;
  h_client_id : string;
  h_client_channel : option Z;
  h_provider : string;
  h_language : string;
  h_enable_diarization : bool;
  h_sample_rate : option Z;
  session_already_ended : bool;
}.

Definition ended (h : Handler) : Handler :=
  {| h_websocket := h_websocket h; h_session_id := h_session_id h;
     h_client_id := h_client_id h; h_client_channel := h_client_channel h;
     h_provider := h_provider h; h_language := h_language h;
     h_enable_diarization := h_enable_diarization h;
     h_sample_rate := h_sample_rate h; session_already_ended := true |}.

(** The request rebuilt for the session start and for every chunk. *)
Definition request_of (h : Handler) : StreamTranscriptionRequest :=
  {| req_provider := h_provider h; req_language := h_language h;
     req_enable_diarization := h_enable_diarization h;
     req_sample_rate := default 16000 (h_sample_rate h) |}.

(** [int(p) if p and p.isdigit() else None] on a query parameter; [int]
    raises on a digit that is not decimal. *)
Definition int_param (p : option string) : res (option Z) :=
  match p with
  | Some s =>
      if negb (String.eqb s "") && isdigit s then
        match py_int s with
        | Some z => Ok (Some z)
        | None => Raise (ValueError "invalid literal for int() with base 10")
        end
      else Ok None
  | None => Ok None
  end.

(** [f"{v}"] of an optional integer. *)
Definition format_channel (c : option Z) : string :=
  match c with
  | Some z => pretty z
  | None => "None"
  end.

(** [self.transcription_sessions[sid]["chunks_processed"] += 1] *)
Definition count_chunk (session_id : string) (m : ConnectionManager) : res ConnectionManager :=
  meta ← py_index (transcription_sessions m) session_id;
  Ok (with_transcription_sessions
        (<[session_id := {| created_at := created_at meta; status := status meta;
                            chunks_processed := chunks_processed meta + 1 |}]>
           (transcription_sessions m)) m).

(** Modelled from the spec: the class [StreamChunk] (models/base.py) is not
    part of the sources; the spec has a chunk carry raw audio bytes and a
    finality flag, so the constructor takes bytes and a boolean (or the
    integers 0 and 1) and rejects the rest. *)
Definition make_chunk (id : string) (audio : pyval) (now : Z) (is_final : pyval)
    : res StreamChunk :=
  match audio with
  | PBytes b =>
      match is_final with
      | PBool f => Ok {| chunk_id := id; audio_data := b; chunk_timestamp := now;
                         chunk_is_final := f |}
      | PInt 0 => Ok {| chunk_id := id; audio_data := b; chunk_timestamp := now;
                        chunk_is_final := false |}
      | PInt 1 => Ok {| chunk_id := id; audio_data := b; chunk_timestamp := now;
                        chunk_is_final := true |}
      | _ => Raise (ValueError "validation error for StreamChunk: is_final")
      end
  | _ => Raise (ValueError "validation error for StreamChunk: audio_data")
  end.

(** [svc = manager.get_service(sid); if not svc: raise ..;
    await svc.process_audio_chunk(chunk, request, sid)].  [fault] is the
    exception the call raises, if the upstream side makes it raise. *)
Definition forward_chunk (session_id : string) (chunk : StreamChunk)
    (request : StreamTranscriptionRequest) (fault : option exn) : M unit :=
  svc ← read (get_service session_id);
  match svc with
  | None => raise (RuntimeError "Transcription service is not initialized for this session")
  | Some svc =>
      match fault with
      | Some e => raise e
      | None => update (set_service session_id (process_audio_chunk chunk request session_id svc))
      end
  end.

(** [manager.map_chunk_channel(sid, chunk_id, client_channel)], whose
    [int(channel)] raises on [None]. *)
Definition map_chunk (session_id chunk : string) (channel : option Z) : M unit :=
  match channel with
  | Some ch => update (map_chunk_channel session_id chunk ch)
  | None => raise (TypeError "int() argument must be a string or a real number, not 'NoneType'")
  end.

Section Endpoint.

(** [str(v)] of a value inside an f-string, for the values other than
    strings, integers, booleans and [None] (floats, lists, dictionaries);
    and [datetime.fromisoformat].  Both live outside the modelled code. *)
Variable py_repr : pyval → string.
Variable fromisoformat : string → option Z.

Definition py_format (v : pyval) : string :=
  match v with
  | PStr s => s
  | PInt z => pretty z
  | PBool true => "True"
  | PBool false => "False"
  | PNone => "None"
  | _ => py_repr v
  end.

(** The branch [message_type == "audio_chunk"] of the receive loop. *)
Definition handle_audio_chunk (h : Handler) (message : gmap string pyval) (now : Z)
    (fault : option exn) : M unit :=
  let session_id := h_session_id h in
  let raw_audio_hex := py_or (py_get message "audio_data") (py_get message "audio_bytes") in
  let orig_chunk_id := py_get message "chunk_id" in
  let is_final := py_get_default message "is_final" (PBool false) in
  match raw_audio_hex with
  | PNone =>
      if truthy is_final then
        let new_chunk_id := "ch" +:+ format_channel (h_client_channel h)
                            +:+ "-final_" +:+ session_id in
        map_chunk session_id new_chunk_id (h_client_channel h);;
        chunk ← lift (make_chunk new_chunk_id (PBytes []) now (PBool true));
        forward_chunk session_id chunk (request_of h) fault
      else mret tt
  | _ =>
      audio_data_bytes ←
        match raw_audio_hex with
        | PStr s => b ← lift (fromhex (list_ascii_of_string s)); mret (PBytes b)
        | v => mret v
        end;
      meta ← session_meta session_id;
      let generated := session_id +:+ "_" +:+ pretty (chunks_processed meta + 1) in
      let new_chunk_id := "ch" +:+ format_channel (h_client_channel h) +:+ "-"
                          +:+ py_format (py_or orig_chunk_id (PStr generated)) in
      map_chunk session_id new_chunk_id (h_client_channel h);;
      chunk ← lift (make_chunk new_chunk_id audio_data_bytes now is_final);
      forward_chunk session_id chunk (request_of h) fault;;
      update_or_raise (count_chunk session_id)
  end.

(** The branch [message_type == "end_session"]; the loop is left after
    it.  [fault] is the exception [svc.end_session] raises, if the
    upstream side makes it raise: the flag is not set then, and the
    [except] clause of the loop takes over. *)
Definition handle_end_session (h : Handler) (fault : option exn) : M Handler :=
  let session_id := h_session_id h in
  svc ← read (get_service session_id);
  h' ← match svc with
       | Some svc =>
           match fault with
           | Some e => raise e
           | None =>
               update (set_service session_id (end_session session_id svc).2);;
               mret (ended h)
           end
       | None => mret h
       end;
  chunks ← read (λ m, default 0 (chunks_processed <$> transcription_sessions m !! session_id));
  send (session_ended session_id chunks) session_id None;;
  mret h'.

(** What [websocket.receive_text()] returned, after [json.loads]: text
    that is not JSON, or the decoded value. *)
Inductive Received :=
  | NotJson
  | Json (v : pyval).

(** One turn of the receive loop on a received text.  The result tells
    whether the loop goes on. *)
Definition on_message (h : Handler) (data : Received) (now : Z) (fault : option exn)
    (w : World) : bool * Handler * World :=
  let report (e : exn) (w : World) :=
    (send (error (exn_text e)) (h_session_id h) (Some (h_client_id h)) w).2 in
  match data with
  | NotJson =>
      (true, h, (send (error "Invalid JSON format") (h_session_id h)
                   (Some (h_client_id h)) w).2)
  | Json (PDict message) =>
      match py_get message "type" with
      | PStr "audio_chunk" =>
          match handle_audio_chunk h message now fault w with
          | (Ok _, w') => (true, h, w')
          | (Raise e, w') => (true, h, report e w')
          end
      | PStr "end_session" =>
          match handle_end_session h fault w with
          | (Ok h', w') => (false, h', w')
          | (Raise e, w') => (true, h, report e w')
          end
      | PStr "ping" =>
          (true, h, (send (pong now) (h_session_id h) (Some (h_client_id h)) w).2)
      | _ => (true, h, w)
      end
  | Json _ => (true, h, report (AttributeError "object has no attribute 'get'") w)
  end.

(** The [finally] block of the endpoint. *)
Definition on_close (h : Handler) (w : World) : World :=
  let session_id := h_session_id h in
  let m := disconnect session_id (Some (h_client_id h)) (manager w) in
  let m :=
    if negb (session_already_ended h) && negb (has_active_clients session_id m) then
      match get_service session_id m with
      | Some svc => set_service session_id (end_session session_id svc).2 m
      | None => m
      end
    else m in
  {| manager := m; net := net w |}.

(** The endpoint up to its receive loop: query parameters, [connect], the
    service of the session, the callback, the acknowledgement.  A query
    parameter [int] rejects ends the run before the socket is accepted. *)
Definition on_open (websocket : nat) (session_id : string)
    (query_params : gmap string string) (now : Z) (w : World) : res Handler * World :=
  let provider := default "yandex" (query_params !! "provider") in
  let provider := if String.eqb provider "yandex_v3" then "yandex" else provider in
  let language := default "ru-RU" (query_params !! "language") in
  let enable_diarization :=
    String.eqb (py_lower (default "true" (query_params !! "enable_diarization"))) "true" in
  match int_param (query_params !! "sample_rate") with
  | Raise e => (Raise e, w)
  | Ok sample_rate =>
  match int_param (query_params !! "channel") with
  | Raise e => (Raise e, w)
  | Ok channel =>
  let net := accept websocket (net w) in
  match connect websocket session_id channel now (manager w) with
  | (Raise e, m) => (Raise e, {| manager := m; net := net |})
  | (Ok client_id, m) =>
  let h := {| h_websocket := websocket; h_session_id := session_id;
              h_client_id := client_id;
              h_client_channel := get_client_channel session_id client_id m;
              h_provider := provider; h_language := language;
              h_enable_diarization := enable_diarization;
              h_sample_rate := sample_rate; session_already_ended := false |} in
  let svc :=
    match get_service session_id m with
    | Some svc => svc
    | None => (start_session session_id (request_of h) new_service).2
    end in
  let m := set_service session_id (set_result_callback svc) m in
  let n := send_personal_message
             (connection_established session_id provider language enable_diarization
                (h_client_channel h))
             session_id (Some client_id) m net in
  (Ok h, {| manager := m; net := n |})
  end
  end
  end.

(** [end_stream_session], the management call [POST /end_session/{id}];
    the result tells whether the service was called. *)
Definition end_stream_session (session_id : string) (w : World) : bool * World :=
  match get_service session_id (manager w) with
  | None => (false, w)
  | Some svc =>
      (true, {| manager := set_service session_id (end_session session_id svc).2 (manager w);
                net := net w |})
  end.

(** [v.strip()] of the text of a result: strings and bytes have the
    method, on any other value the call raises. *)
Definition stripped_text (v : pyval) : option pyval :=
  match v with
  | PStr raw => Some (PStr (py_strip raw))
  | PBytes raw => Some (PBytes (bytes_strip raw))
  | _ => None
  end.

(** A byte sequence that is the UTF-8 encoding of some text. *)
Definition utf8_valid (b : list ascii) : bool :=
  bool_decide (flat_map utf8 (code_points b) = b)
  && forallb (λ c, (c <? 55296)%N || between 57344 1114111 c) (code_points b).

(** Modelled from the spec: the class [StreamTranscriptionResponse]
    (models/responses.py) is not part of the sources; the outbound
    message carries the recognized text, so a text given as bytes is read
    as the text it encodes in UTF-8, and the construction raises where it
    encodes none. *)
Definition response_text (v : pyval) : option string :=
  match v with
  | PStr s => Some s
  | PBytes b => if utf8_valid b then Some (string_of_list_ascii b) else None
  | _ => None
  end.

(** [result_callback], the closure the endpoint registers with the
    service.  An exception anywhere inside is logged and ends the call. *)
Definition result_callback (cb_session_id : string) (result : gmap string pyval)
    (now : Z) (w : World) : World :=
  match stripped_text (py_get_default result "text" (PStr "")) with
  | Some text =>
      if negb (truthy text) then w
      else
        let timestamp :=
          match py_get result "timestamp" with
          | PStr s => PTime <$> fromisoformat s
          | PNone => Some (PTime now)
          | v => Some v
          end in
        match timestamp with
        | None => w
        | Some timestamp =>
            let speaker_id := py_get result "speaker_id" in
            let speaker_id :=
              if truthy speaker_id then Some speaker_id
              else
                match py_or (py_get result "chunk_id") (PStr "") with
                | PStr chunk_id_local =>
                    let ch := channel_of_chunk_id chunk_id_local in
                    let ch :=
                      match ch with
                      | Some c => Some c
                      | None => resolve_channel_for_chunk cb_session_id chunk_id_local
                                  (manager w)
                      end in
                    Some match ch with
                         | Some c => PStr ("channel_" +:+ pretty c)
                         | None => speaker_id
                         end
                | PList _ | PDict _ => None
                | _ => Some speaker_id
                end in
            match speaker_id with
            | None => w
            | Some speaker_id =>
                let is_final := py_get_default result "is_final" (PBool false) in
                let m := add_transcription_result cb_session_id
                           (<["chunk_id" := py_get_default result "chunk_id" (PStr "")]>
                           (<["timestamp" := timestamp]>
                           (<["text" := text]>
                           (<["is_final" := is_final]>
                           (<["confidence" := py_get result "confidence"]>
                           (<["speaker_id" := speaker_id]>
                           (<["success" := PBool true]> ∅)))))))
                           (manager w) in
                let stamp := match timestamp with PTime t => t | _ => now end in
                {| manager := m;
                   net :=
                     match response_text text with
                     | Some text =>
                         broadcast
                           (transcription_result (py_get_default result "chunk_id" (PStr ""))
                              text is_final (py_get result "confidence") speaker_id stamp)
                           cb_session_id m (net w)
                     | None => net w
                     end |}
            end
        end
  | None => w
  end.

End Endpoint.

(** ** Notions used in the statements *)

(** The name [connect] gives its [i]-th client of a session. *)
Definition client_name (i : nat) : string := "c" +:+ pretty i.

(** The state of a session to which [k] clients have connected and none
    has disconnected: clients [c1..ck], client [ci] on channel [i]. *)
Definition filled (session_id : string) (k : nat) (m : ConnectionManager) : Prop :=
  ∃ conns chans,
    active_connections m !! session_id = Some conns
    ∧ client_channels m !! session_id = Some chans
    ∧ size conns = k
    ∧ (∀ cid, is_Some (conns !! cid) → ∃ i, (1 ≤ i ≤ k)%nat ∧ cid = client_name i)
    ∧ (∀ cid z, chans !! cid = Some z ↔
         ∃ i, (1 ≤ i ≤ k)%nat ∧ cid = client_name i ∧ z = Z.of_nat i).

(** The channels [k+1 .. k+n], in order. *)
Definition channel_run (k n : nat) : list Z := Z.of_nat <$> seq (S k) n.

(** A call that leaves the entry of [chunk] in session [session_id] at
    [channel]: any call but a [connect] that finds the session without
    connection container, and a [map_chunk_channel] that maps the same
    chunk id to another channel. *)
Definition keeps_entry (session_id chunk : string) (channel : Z) (c : RegistryCall)
    (m : ConnectionManager) : Prop :=
  match c with
  | CallConnect _ sid _ _ => sid ≠ session_id ∨ is_Some (active_connections m !! session_id)
  | CallMapChunk sid k ch => sid ≠ session_id ∨ k ≠ chunk ∨ ch = channel
  | _ => True
  end.

Fixpoint keep_entry (session_id chunk : string) (channel : Z) (cs : list RegistryCall)
    (m : ConnectionManager) : Prop :=
  match cs with
  | [] => True
  | c :: rest =>
      keeps_entry session_id chunk channel c m
      ∧ keep_entry session_id chunk channel rest (call c m)
  end.


(** A record counts as final when its ["is_final"] entry is true. *)
Definition is_final_record (r : gmap string pyval) : bool :=
  truthy (py_get_default r "is_final" (PBool false)).



(** A result record as [result_callback] stores it, reduced to the two
    entries the transcript reads. *)
Definition text_record (text : string) (is_final : bool) : gmap string pyval :=
  <["text" := PStr text]> (<["is_final" := PBool is_final]> ∅).

(** [bool(chunk)] of a chunk of the audio stream. *)
Definition nonempty_chunk (chunk : list ascii) : bool :=
  match chunk with
  | [] => false
  | _ => true
  end.

Definition is_session_options (r : StreamingRequest) : bool :=
  match r with
  | session_options_request _ => true
  | _ => false
  end.

(** The import guards all passed. *)
Definition streaming_available (rt : Runtime) : Prop :=
  GRPC_AVAILABLE rt = true ∧ RecognizerStub_imported rt = true
  ∧ StreamingRequest_imported rt = true.

(** The record is one of [{"type": "error", ...}]. *)
Definition is_error_record (r : gmap string pyval) : Prop :=
  r !! "type" = Some (PStr "error").

(** The number of [{"type": "error", ..}] messages among the messages
    sent on a socket. *)
Definition error_messages (s : Socket) : nat :=
  length (List.filter (λ msg, match msg with error _ => true | _ => false end)
            (sock_sent s)).

(** ** The gateway as a whole *)

(** What can happen at the gateway: a client opens a WebSocket on a
    session, a text arrives on an open socket ([fault] as in
    [forward_chunk]), a socket is closed by its client
    ([WebSocketDisconnect] in [receive_text]), the management call
    [POST /end_session/{id}], and a result the service hands to the
    callback. *)
Inductive Event :=
  | Open (websocket : nat) (session_id : string) (query_params : gmap string string)
      (now : Z)
  | Message (websocket : nat) (data : Received) (now : Z) (fault : option exn)
  | Close (websocket : nat)
  | EndCall (session_id : string)
  | Result (session_id : string) (result : gmap string pyval) (now : Z).

(** The world and the endpoint runs that are in their receive loop, by
    socket. *)
Record Gateway := {
  world : World;
  running : gmap nat Handler;
}.

Definition start : Gateway :=
  {| world := {| manager := init; net := ∅ |}; running := ∅ |}.

Section Gateway.

Variable py_repr : pyval → string.
Variable fromisoformat : string → option Z.

Definition step (g : Gateway) (ev : Event) : Gateway :=
  match ev with
  | Open websocket session_id query_params now =>
      match running g !! websocket with
      | Some _ => g
      | None =>
          match on_open websocket session_id query_params now (world g) with
          | (Ok h, w) => {| world := w; running := <[websocket := h]> (running g) |}
          | (Raise _, w) => {| world := w; running := running g |}
          end
      end
  | Message websocket data now fault =>
      match running g !! websocket with
      | None => g
      | Some h =>
          match on_message py_repr h data now fault (world g) with
          | (true, h', w) => {| world := w; running := <[websocket := h']> (running g) |}
          | (false, h', w) =>
              {| world := on_close h' w; running := delete websocket (running g) |}
          end
      end
  | Close websocket =>
      match running g !! websocket with
      | None => g
      | Some h =>
          {| world := on_close h (world g); running := delete websocket (running g) |}
      end
  | EndCall session_id =>
      {| world := (end_stream_session session_id (world g)).2; running := running g |}
  | Result session_id result now =>
      {| world := result_callback fromisoformat session_id result now (world g);
         running := running g |}
  end.

Definition run (evs : list Event) (g : Gateway) : Gateway := foldl step g evs.

End Gateway.

(** The message [{"type": "end_session"}]. *)
Definition end_session_message : Received :=
  Json (PDict {["type" := PStr "end_session"]}).

(** The dictionary of a received text, empty when the text is not JSON or
    not a dictionary. *)
Definition message_of (data : Received) : gmap string pyval :=
  match data with
  | Json (PDict message) => message
  | _ => ∅
  end.

(** [manager.transcription_sessions.get(sid, {}).get("chunks_processed", 0)] *)
Definition processed (session_id : string) (w : World) : Z :=
  default 0 (chunks_processed <$> transcription_sessions (manager w) !! session_id).

(** The two client containers of the registry go together: a session has
    a connection container exactly when it has a channel container, and
    the two hold the same client ids. *)
Definition aligned (m : ConnectionManager) : Prop :=
  ∀ session_id,
    match active_connections m !! session_id, client_channels m !! session_id with
    | Some conns, Some chans => ∀ cid, is_Some (conns !! cid) ↔ is_Some (chans !! cid)
    | None, None => True
    | _, _ => False
    end.

(** How the stored results and the metadata of the sessions change from
    [m] to [m']: a log only gets longer at its end; the metadata of a
    session stays, with its creation time and status, and its counter
    does not go down; metadata that appears is that of a session just
    connected. *)
Definition grows (m m' : ConnectionManager) : Prop :=
  (∀ sid log, session_results m !! sid = Some log →
              ∃ more, session_results m' !! sid = Some (log ++ more)%list)
  ∧ (∀ sid meta, transcription_sessions m !! sid = Some meta →
                 ∃ meta', transcription_sessions m' !! sid = Some meta'
                          ∧ created_at meta' = created_at meta
                          ∧ status meta' = status meta
                          ∧ chunks_processed meta ≤ chunks_processed meta')
  ∧ (∀ sid, transcription_sessions m !! sid = None →
            transcription_sessions m' !! sid = None
            ∨ ∃ meta', transcription_sessions m' !! sid = Some meta'
                       ∧ status meta' = "connected"
                       ∧ 0 ≤ chunks_processed meta').

(** A computation changes the registry within the relation [R]. *)
Definition within (R : ConnectionManager → ConnectionManager → Prop) {A} (c : M A) : Prop :=
  ∀ w, R (manager w) (manager (c w).2).

(** The receive loop's turn on a decoded dictionary, with the dispatch on
    the message type written with string comparisons.  It is the same
    function as [on_message] there ([on_message_dispatch] below). *)
Definition dispatch (py_repr : pyval → string) (h : Handler) (message : gmap string pyval)
    (now : Z) (fault : option exn) (w : World) : bool * Handler * World :=
  let report (e : exn) (w : World) :=
    (send (error (exn_text e)) (h_session_id h) (Some (h_client_id h)) w).2 in
  match py_get message "type" with
  | PStr type =>
      if String.eqb type "audio_chunk" then
        match handle_audio_chunk py_repr h message now fault w with
        | (Ok _, w') => (true, h, w')
        | (Raise e, w') => (true, h, report e w')
        end
      else if String.eqb type "end_session" then
        match handle_end_session h fault w with
        | (Ok h', w') => (false, h', w')
        | (Raise e, w') => (true, h, report e w')
        end
      else if String.eqb type "ping" then
        (true, h, (send (pong now) (h_session_id h) (Some (h_client_id h)) w).2)
      else (true, h, w)
  | _ => (true, h, w)
  end.

(** The sessions' metadata is the same in [m'] as in [m]. *)
Definition same_sessions (m m' : ConnectionManager) : Prop :=
  transcription_sessions m' = transcription_sessions m.

(** [message.get("audio_data") or message.get("audio_bytes")] *)
Definition raw_audio (message : gmap string pyval) : pyval :=
  py_or (py_get message "audio_data") (py_get message "audio_bytes").

(** A handler as [on_open] makes it for the first client of session "s". *)
Definition first_handler : Handler :=
  {| h_websocket := 1; h_session_id := "s"; h_client_id := "c1";
     h_client_channel := Some 1; h_provider := "yandex"; h_language := "ru-RU";
     h_enable_diarization := true; h_sample_rate := None;
     session_already_ended := false |}.

(** The world after that client has connected at time 10. *)
Definition first_world : World :=
  (on_open 1 "s" ∅ 10 {| manager := init; net := ∅ |}).2.

(** [{"type": "audio_chunk", "audio_data": "0aff", "chunk_id": "k"}] *)
Definition two_byte_chunk : gmap string pyval :=
  <["type" := PStr "audio_chunk"]>
  (<["audio_data" := PStr "0aff"]> (<["chunk_id" := PStr "k"]> ∅)).

(** The socket can be sent to. *)
Definition is_open (s : Socket) : bool := sock_accepted s && negb (sock_closed s).

(** The socket after [k] more copies of a message were sent on it. *)
Definition delivered (message : OutMsg) (k : nat) (s : Socket) : Socket :=
  {| sock_accepted := sock_accepted s; sock_closed := sock_closed s;
     sock_sent := (sock_sent s ++ replicate k message)%list |}.

(** How many of the sockets in [l] are the socket [ws]. *)
Definition occurrences (ws : nat) (l : list nat) : nat :=
  length (List.filter (λ x, bool_decide (x = ws)) l).

(** The sockets registered for the clients of a session, one per client
    id. *)
Definition session_sockets (session_id : string) (m : ConnectionManager) : list nat :=
  (map_to_list (default ∅ (active_connections m !! session_id))).*2.

(** A result [{"text": " hi ", "chunk_id": "ch3-x"}] and a world whose
    chunk-channel map has the chunk on channel 9. *)
Definition hi_result : gmap string pyval :=
  <["text" := PStr " hi "]> (<["chunk_id" := PStr "ch3-x"]> ∅).

Definition mapped_world : World :=
  {| manager := map_chunk_channel "s" "ch3-x" 9 init; net := ∅ |}.

(** [recognize_stream] got through to the end of the response stream. *)
Definition completes (rt : Runtime) (settings : Settings) (up : Upstream) : Prop :=
  streaming_available rt
  ∧ (∃ metadata, _build_auth_metadata settings = Ok metadata)
  ∧ ready_failure up = None
  ∧ stream_failure up = None.

(** The language tag the adapter sends for a requested one. *)
Definition full_language (language : string) : string :=
  if String.eqb language "ru" then "ru-RU"
  else if String.eqb language "en" then "en-US" else language.

(** ** Forced termination *)

(** [websocket.close()]; the endpoint ignores a failure of it. *)
Definition close (ws : nat) (net : gmap nat Socket) : gmap nat Socket :=
  let s := default fresh_socket (net !! ws) in
  <[ws := {| sock_accepted := sock_accepted s; sock_closed := true;
             sock_sent := sock_sent s |}]> net.

(** One turn of the closing loop of [terminate_session]. *)
Definition close_client (session_id : string) (w : World) (item : string * nat) : World :=
  {| manager := disconnect session_id (Some item.1) (manager w);
     net := close item.2 (net w) |}.

(** [terminate_session], the management call [DELETE /sessions/{id}]:
    every client of the session is closed and disconnected, then the
    service of the session (a new one when none is registered, which is
    dropped afterwards) is asked to end it.  The result is [false] where
    the endpoint answers 404. *)
Definition terminate_session (session_id : string) (w : World) : bool * World :=
  let registered := get_service session_id (manager w) in
  let stream_service := default new_service registered in
  let closing :=
    match active_connections (manager w) !! session_id with
    | Some conns => (true, foldl (close_client session_id) w (map_to_list conns))
    | None => (false, w)
    end in
  let ended := end_session session_id stream_service in
  let w :=
    match registered with
    | Some _ =>
        {| manager := set_service session_id ended.2 (manager closing.2);
           net := net closing.2 |}
    | None => closing.2
    end in
  (closing.1 || ended.1, w).

(** The number a sequence of decimal characters writes, most significant
    digit first. *)
Definition decimal_number (l : list N) : Z :=
  foldl (λ acc c, acc * 10 + default 0 (decimal_value c)) 0 l.

(** The text [" hi "] with a no-break space (U+00A0) before and a line
    separator (U+2028) after it. *)
Definition padded_hi : string :=
  string_of_list_ascii (utf8 160 ++ list_ascii_of_string " hi " ++ utf8 8232).

(** * Properties *)

(** ** Checks of the string helpers *)

Example fromhex_two_bytes :
  fromhex (list_ascii_of_string "0aff") = Ok [ascii_of_nat 10; ascii_of_nat 255].
Proof. reflexivity. Qed.

Example fromhex_blank : fromhex (list_ascii_of_string " ") = Ok [].
Proof. reflexivity. Qed.

Example channel_of_chunk_id_12 : channel_of_chunk_id "ch12-s_3" = Some 12.
Proof. reflexivity. Qed.

Example channel_of_chunk_id_plain : channel_of_chunk_id "chunk-3" = None.
Proof. reflexivity. Qed.

(** ** Channel assignment *)

Lemma free_channel_loop_spec (used : gset Z) (fuel : nat) :
  ∀ (ch : Z) (U : gset Z),
    (∀ j, ch ≤ j → j ∈ used → j ∈ U) →
    (size U < fuel)%nat →
    ∃ r, free_channel_loop used fuel ch = Some r ∧ ch ≤ r ∧ (r ∉ used)
         ∧ (∀ j, ch ≤ j < r → j ∈ used).
Proof.
  induction fuel as [|fuel IH]; intros ch U Hcover Hsize; [lia|].
  simpl. destruct (decide (ch ∈ used)) as [Hin|Hout].
  - assert (HU : ch ∈ U) by (apply Hcover; [lia|done]).
    destruct (IH (ch + 1) (U ∖ {[ch]})) as (r & Hr & Hle & Hnot & Hbelow).
    + intros j Hj Hju. apply elem_of_difference. split.
      * apply Hcover; [lia|done].
      * rewrite elem_of_singleton. lia.
    + assert (size (U ∖ {[ch]}) = (size U - 1)%nat) as ->.
      { rewrite size_difference; [|set_solver]. by rewrite size_singleton. }
      assert (size U ≠ 0%nat).
      { intros H0. apply size_empty_inv in H0. set_solver. }
      lia.
    + exists r. repeat split; [done|lia|done|].
      intros j Hj. destruct (decide (j = ch)) as [->|Hne]; [done|].
      apply Hbelow. lia.
  - exists ch. repeat split; [lia|done|]. intros j Hj. lia.
Qed.

(** The loop of [connect] always leaves, and leaves at the smallest
    positive integer that is not in use. *)
Lemma free_channel_loop_total (used : gset Z) :
  ∃ r, free_channel_loop used (S (size used)) 1 = Some r ∧ 1 ≤ r ∧ (r ∉ used)
       ∧ (∀ j, 1 ≤ j < r → j ∈ used).
Proof. apply (free_channel_loop_spec used (S (size used)) 1 used); [done|lia]. Qed.

Lemma free_channel_spec (used : gset Z) :
  1 ≤ free_channel used ∧ (free_channel used ∉ used)
  ∧ (∀ j, 1 ≤ j < free_channel used → j ∈ used).
Proof.
  unfold free_channel.
  destruct (free_channel_loop_total used) as (r & -> & ? & ? & ?). done.
Qed.

(** When exactly [1..k] are in use the next channel is [k + 1]. *)
Lemma free_channel_initial_segment (used : gset Z) (k : nat) :
  (∀ z, z ∈ used ↔ 1 ≤ z ≤ Z.of_nat k) →
  free_channel used = Z.of_nat (S k).
Proof.
  intros Hused. destruct (free_channel_spec used) as (Hpos & Hnot & Hbelow).
  rewrite Hused in Hnot.
  destruct (decide (free_channel used ≤ Z.of_nat (S k))) as [|Hgt]; [lia|].
  assert (Z.of_nat (S k) ∈ used) as Hin by (apply Hbelow; lia).
  apply Hused in Hin. lia.
Qed.

Lemma client_name_inj (i j : nat) : client_name i = client_name j → i = j.
Proof.
  unfold client_name. intros H.
  apply (inj (String.append "c")) in H. by apply (inj pretty) in H.
Qed.

Lemma filled_img session_id k m chans :
  filled session_id k m →
  client_channels m !! session_id = Some chans →
  ∀ z, z ∈ (map_img chans : gset Z) ↔ 1 ≤ z ≤ Z.of_nat k.
Proof.
  intros (conns & chans' & _ & Hch & _ & _ & Hchans) Hch' z.
  assert (chans' = chans) as -> by congruence.
  rewrite elem_of_map_img. split.
  - intros (cid & Hcid). apply Hchans in Hcid as (i & Hi & _ & ->). lia.
  - intros Hz. exists (client_name (Z.to_nat z)). apply Hchans.
    exists (Z.to_nat z). split; [lia|]. split; [done|lia].
Qed.

Lemma init_containers_absent session_id now m :
  active_connections m !! session_id = None →
  filled session_id 0 (init_containers session_id now m).
Proof.
  intros Hnone. unfold init_containers.
  destruct (decide (is_Some (active_connections m !! session_id))) as [[? Hs]|_];
    [congruence|].
  exists ∅, ∅. repeat case_decide; simpl; rewrite !lookup_insert_eq;
    (split; [done|]); (split; [done|]); (split; [done|]);
    (split; [intros cid [? Hc]; by rewrite lookup_empty in Hc|]);
    intros cid z; rewrite lookup_empty;
    (split; [done|intros (i & Hi & _); lia]).
Qed.

Lemma init_containers_present session_id now m conns :
  active_connections m !! session_id = Some conns →
  active_connections (init_containers session_id now m) = active_connections m
  ∧ client_channels (init_containers session_id now m) = client_channels m
  ∧ chunk_channel_map (init_containers session_id now m) = chunk_channel_map m.
Proof.
  intros Hsome. unfold init_containers.
  destruct (decide (is_Some (active_connections m !! session_id))) as [_|Hn];
    [|by destruct Hn; eauto].
  by repeat case_decide.
Qed.

Lemma init_containers_filled session_id now m k :
  filled session_id k m → filled session_id k (init_containers session_id now m).
Proof.
  intros (conns & chans & Hc & Hch & Hrest).
  destruct (init_containers_present session_id now m conns Hc) as (E1 & E2 & _).
  exists conns, chans. by rewrite E1, E2.
Qed.

(** One more client on a session in the state [filled .. k]. *)
Lemma connect_filled session_id websocket now m k :
  filled session_id k (init_containers session_id now m) →
  ∃ m', connect websocket session_id None now m = (Ok (client_name (S k)), m')
        ∧ get_client_channel session_id (client_name (S k)) m' = Some (Z.of_nat (S k))
        ∧ filled session_id (S k) m'.
Proof.
  intros Hfill. pose proof Hfill as (conns & chans & Hc & Hch & Hsize & Hconns & Hchans).
  unfold connect. set (m0 := init_containers session_id now m) in *.
  cbv zeta. unfold py_index. rewrite Hc. simpl. rewrite !Hch. simpl. rewrite Hsize.
  rewrite (free_channel_initial_segment _ k (filled_img _ _ _ _ Hfill Hch)).
  fold (client_name (S k)).
  assert (Hfresh : conns !! client_name (S k) = None).
  { destruct (conns !! client_name (S k)) eqn:E; [|done].
    destruct (Hconns (client_name (S k))) as (i & Hi & Heq); [by eauto|].
    apply client_name_inj in Heq. lia. }
  eexists. split; [reflexivity|]. split.
  - unfold get_client_channel. simpl. rewrite lookup_insert_eq. simpl.
    by rewrite lookup_insert_eq.
  - exists (<[client_name (S k) := websocket]> conns),
           (<[client_name (S k) := Z.of_nat (S k)]> chans).
    simpl. rewrite !lookup_insert_eq. split; [done|]. split; [done|]. split.
    { rewrite map_size_insert_None; [|done]. by rewrite Hsize. }
    split.
    + intros cid Hsome. destruct (decide (cid = client_name (S k))) as [->|Hne].
      * exists (S k). split; [lia|done].
      * rewrite lookup_insert_ne in Hsome; [|done].
        destruct (Hconns cid Hsome) as (i & Hi & ->). exists i. split; [lia|done].
    + intros cid z. destruct (decide (cid = client_name (S k))) as [->|Hne].
      * rewrite lookup_insert_eq. split.
        -- intros [= <-]. exists (S k). split; [lia|done].
        -- intros (i & Hi & Heq & ->). apply client_name_inj in Heq. by subst.
      * rewrite lookup_insert_ne; [|done]. rewrite Hchans. split.
        -- intros (i & Hi & -> & ->). exists i. split; [lia|done].
        -- intros (i & Hi & -> & ->). exists i. split; [|done].
           assert (i ≠ S k) by (intros ->; done). lia.
Qed.

Lemma connect_each_filled session_id clients :
  ∀ m k, filled session_id k m →
  ∃ m', connect_each session_id clients m = Ok (channel_run k (length clients), m')
        ∧ filled session_id (k + length clients) m'.
Proof.
  induction clients as [|[websocket now] rest IH]; intros m k Hfill.
  - exists m. split; [done|]. by rewrite Nat.add_0_r.
  - destruct (connect_filled session_id websocket now m k) as (m1 & Hconn & Hch & Hfill1).
    { by apply init_containers_filled. }
    destruct (IH m1 (S k) Hfill1) as (m2 & Hrest & Hfill2).
    exists m2. split.
    + simpl. rewrite Hconn. simpl. rewrite Hch. simpl. rewrite Hrest. done.
    + by replace (k + length ((websocket, now) :: rest))%nat
        with (S k + length rest)%nat by (simpl; lia).
Qed.

Lemma channel_run_elem (n : nat) (z : Z) :
  z ∈ channel_run 0 n ↔ 1 ≤ z ≤ Z.of_nat n.
Proof.
  unfold channel_run. rewrite list_elem_of_fmap. split.
  - intros (i & -> & Hi). apply elem_of_seq in Hi. lia.
  - intros Hz. exists (Z.to_nat z). split; [lia|]. apply elem_of_seq. lia.
Qed.

Lemma channel_run_NoDup (k n : nat) : NoDup (channel_run k n).
Proof.
  unfold channel_run. apply (NoDup_fmap_2 _). apply NoDup_seq.
Qed.

(** C1: clients that connect one after the other to a session that has no
    connection yet, none asking for a channel and none leaving, are all
    accepted, and the channels they are assigned are 1, 2, .., N in the
    order of connecting: every number of 1..N is assigned, none twice,
    whichever sockets connect and in whichever order. *)
Theorem connect_assigns_initial_segment (session_id : string)
    (clients : list (nat * Z)) (m : ConnectionManager) :
  active_connections m !! session_id = None →
  ∃ chs m',
    connect_each session_id clients m = Ok (chs, m')
    ∧ chs = Z.of_nat <$> seq 1 (length clients)
    ∧ NoDup chs
    ∧ (∀ z, z ∈ chs ↔ 1 ≤ z ≤ Z.of_nat (length clients)).
Proof.
  intros Habsent. destruct clients as [|[websocket now] rest].
  - exists [], m. split; [done|]. split; [done|]. split; [apply NoDup_nil_2|].
    intros z. simpl. rewrite elem_of_nil. lia.
  - destruct (connect_filled session_id websocket now m 0) as (m1 & Hconn & Hch & Hfill1).
    { by apply init_containers_absent. }
    destruct (connect_each_filled session_id rest m1 1 Hfill1) as (m2 & Hrest & _).
    exists (channel_run 0 (length ((websocket, now) :: rest))), m2.
    split; [|split; [done|split; [apply channel_run_NoDup|apply channel_run_elem]]].
    simpl. rewrite Hconn. simpl. rewrite Hch. simpl. rewrite Hrest. done.
Qed.

Lemma connect_assigns_initial_segment_witness :
  active_connections init !! "meeting" = None
  ∧ ∃ chs m',
      connect_each "meeting" [(7%nat, 100); (3%nat, 101); (9%nat, 102)] init = Ok (chs, m')
      ∧ chs = Z.of_nat <$> seq 1 3
      ∧ NoDup chs
      ∧ (∀ z, z ∈ chs ↔ 1 ≤ z ≤ 3).
Proof.
  split; [reflexivity|].
  apply (connect_assigns_initial_segment "meeting"
           [(7%nat, 100); (3%nat, 101); (9%nat, 102)] init).
  reflexivity.
Defined.

(** ** Client identifiers *)

(** C6: client ids are [c<number of connected clients + 1>], so after a
    disconnect the next id can be one that is still connected.  Two
    clients connect and get [c1] and [c2]; [c1] leaves; the third client
    is named [c2] again and takes over the registration and the channel of
    the second, which is still connected. *)
Theorem client_id_reused_after_disconnect :
  let '(id1, m1) := connect 1 "s" None 0 init in
  let '(id2, m2) := connect 2 "s" None 0 m1 in
  let m3 := disconnect "s" (Some "c1") m2 in
  let '(id3, m4) := connect 3 "s" None 0 m3 in
  id1 = Ok "c1" ∧ id2 = Ok "c2" ∧ id3 = Ok "c2"
  ∧ active_connections m3 !! "s" = Some {["c2" := 2%nat]}
  ∧ client_channels m3 !! "s" = Some {["c2" := 2]}
  ∧ active_connections m4 !! "s" = Some {["c2" := 3%nat]}
  ∧ client_channels m4 !! "s" = Some {["c2" := 1]}.
Proof. vm_compute. repeat split. Qed.

(** ** The chunk-channel map *)

(** Case analysis on the innermost scrutinee of the goal. *)
Ltac split_match :=
  match goal with
  | |- context [match ?x with _ => _ end] =>
      lazymatch x with
      | context [match _ with _ => _ end] => fail
      | _ => destruct x; simpl
      end
  end.

Lemma disconnect_chunk_channel_map session_id client_id m :
  chunk_channel_map (disconnect session_id client_id m) = chunk_channel_map m.
Proof.
  unfold disconnect. destruct client_id as [cid|]; [|done].
  cbv zeta. repeat split_match; done.
Qed.

Lemma connect_chunk_channel_map websocket session_id channel now m :
  is_Some (active_connections m !! session_id) →
  chunk_channel_map (connect websocket session_id channel now m).2 = chunk_channel_map m.
Proof.
  intros [conns Hc].
  destruct (init_containers_present session_id now m conns Hc) as (E1 & E2 & E3).
  unfold connect. set (m0 := init_containers session_id now m) in *. cbv zeta.
  rewrite E1, Hc.
  destruct channel as [ch|]; simpl.
  - destruct (client_channels m0 !! session_id); simpl; done.
  - unfold py_index. destruct (client_channels m0 !! session_id); simpl; done.
Qed.

Lemma connect_chunk_channel_map_other websocket session_id channel now m other :
  other ≠ session_id →
  chunk_channel_map (connect websocket session_id channel now m).2 !! other
  = chunk_channel_map m !! other.
Proof.
  intros Hne.
  assert (H0 : chunk_channel_map (init_containers session_id now m) !! other
               = chunk_channel_map m !! other).
  { unfold init_containers. repeat case_decide; simpl; rewrite ?lookup_insert_ne; done. }
  unfold connect. set (m0 := init_containers session_id now m) in *. cbv zeta.
  destruct (active_connections m0 !! session_id); [|done].
  destruct channel as [ch|]; simpl.
  - destruct (client_channels m0 !! session_id); simpl; done.
  - unfold py_index. destruct (client_channels m0 !! session_id); simpl; done.
Qed.

Lemma call_keeps_entry session_id chunk channel c m :
  keeps_entry session_id chunk channel c m →
  resolve_channel_for_chunk session_id chunk m = Some channel →
  resolve_channel_for_chunk session_id chunk (call c m) = Some channel.
Proof.
  unfold resolve_channel_for_chunk.
  destruct c as [ws sid ch now|sid cid|sid r|sid k ch|sid svc]; simpl; intros Hk Hres.
  - destruct (decide (sid = session_id)) as [->|Hne].
    + destruct Hk as [?|Hsome]; [done|]. by rewrite connect_chunk_channel_map.
    + by rewrite connect_chunk_channel_map_other.
  - by rewrite disconnect_chunk_channel_map.
  - done.
  - destruct (decide (sid = session_id)) as [->|Hne].
    + rewrite lookup_insert_eq. simpl.
      destruct (decide (k = chunk)) as [->|Hnk].
      * rewrite lookup_insert_eq. destruct Hk as [ ? | [ ? | -> ] ]; done.
      * by rewrite lookup_insert_ne.
    + by rewrite lookup_insert_ne.
  - done.
Qed.

(** C2, as the registry has it: [disconnect] never touches the
    chunk-channel map, and once a chunk id is mapped to a channel,
    [resolve_channel_for_chunk] returns that channel after any run of
    registry calls (disconnects of one client or of all, further connects,
    results, mappings, services) in which every [connect] to the session
    finds its connection container present and no [map_chunk_channel]
    maps the same chunk id to another channel. *)
Theorem chunk_mapping_stable (session_id chunk : string) (channel : Z)
    (cs : list RegistryCall) (m : ConnectionManager) :
  keep_entry session_id chunk channel cs (map_chunk_channel session_id chunk channel m) →
  (∀ sid cid m', chunk_channel_map (disconnect sid cid m') = chunk_channel_map m')
  ∧ resolve_channel_for_chunk session_id chunk
      (calls cs (map_chunk_channel session_id chunk channel m)) = Some channel.
Proof.
  intros Hkeep. split; [intros; apply disconnect_chunk_channel_map|].
  assert (Hstart : resolve_channel_for_chunk session_id chunk
                     (map_chunk_channel session_id chunk channel m) = Some channel).
  { unfold resolve_channel_for_chunk, map_chunk_channel. simpl.
    rewrite lookup_insert_eq. simpl. by rewrite lookup_insert_eq. }
  revert Hkeep Hstart. generalize (map_chunk_channel session_id chunk channel m).
  induction cs as [|c rest IH]; intros m0 Hkeep Hres; [done|].
  destruct Hkeep as [Hc Hrest]. simpl. apply IH; [done|].
  by apply call_keeps_entry.
Qed.

Lemma chunk_mapping_stable_witness :
  let m := (connect 1 "s" None 0 (connect 2 "s" None 0 init).2).2 in
  let cs := [CallDisconnect "s" (Some "c1"); CallConnect 3 "s" None 1;
             CallMapChunk "s" "ch2-b" 2; CallDisconnect "s" None] in
  keep_entry "s" "ch1-a" 1 cs (map_chunk_channel "s" "ch1-a" 1 m)
  ∧ resolve_channel_for_chunk "s" "ch1-a" (calls cs (map_chunk_channel "s" "ch1-a" 1 m))
    = Some 1.
Proof.
  assert (Hk : keep_entry "s" "ch1-a" 1
                 [CallDisconnect "s" (Some "c1"); CallConnect 3 "s" None 1;
                  CallMapChunk "s" "ch2-b" 2; CallDisconnect "s" None]
                 (map_chunk_channel "s" "ch1-a" 1
                    (connect 1 "s" None 0 (connect 2 "s" None 0 init).2).2)).
  { cbn [keep_entry keeps_entry]. split; [exact I|].
    split; [right; vm_compute; eauto|].
    split; [right; left; intros H; discriminate H|].
    split; exact I. }
  split; [exact Hk|].
  exact (proj2 (chunk_mapping_stable "s" "ch1-a" 1 _ _ Hk)).
Defined.

(** C2 as stated fails on two runs.  A client connects and a chunk of its
    is mapped to channel 1; the client leaves and another one connects:
    [connect] finds no connection container for the session and creates
    the three containers anew, the chunk-channel map among them, while the
    session itself (its metadata, its results) is still there.  And a
    second [map_chunk_channel] for the same chunk id replaces the
    channel. *)
Lemma chunk_mapping_not_stable :
  let m := map_chunk_channel "s" "ch1-a" 1 (connect 1 "s" None 0 init).2 in
  resolve_channel_for_chunk "s" "ch1-a" m = Some 1
  ∧ resolve_channel_for_chunk "s" "ch1-a"
      (calls [CallDisconnect "s" (Some "c1"); CallConnect 2 "s" None 5] m) = None
  ∧ is_Some (transcription_sessions
               (calls [CallDisconnect "s" (Some "c1"); CallConnect 2 "s" None 5] m) !! "s")
  ∧ resolve_channel_for_chunk "s" "ch1-a" (calls [CallMapChunk "s" "ch1-a" 2] m) = Some 2.
Proof. vm_compute. repeat split; eauto. Qed.

(** ** The transcript *)






(** C9, as the registry has it: the results query answers [None] exactly
    for a session it does not know, and a list (maybe empty) for one it
    knows; the transcript query answers [None] both for a session it does
    not know and for a known session without final records, whatever the
    format. *)
Theorem not_found_outcomes (json_dumps : list (gmap string pyval) → string)
    (session_id format_type : string) (include_partial : bool) (m : ConnectionManager) :
  (get_session_results session_id include_partial m = None
   ↔ session_results m !! session_id = None)
  ∧ (session_results m !! session_id = None →
     get_session_transcript json_dumps session_id format_type m = Ok None)
  ∧ (get_session_results session_id false m = Some [] →
     get_session_transcript json_dumps session_id format_type m = Ok None).
Proof.
  unfold get_session_transcript, get_session_results. split; [|split].
  - destruct (session_results m !! session_id); [|done].
    destruct include_partial; split; done.
  - by intros ->.
  - by intros ->.
Qed.

(** C9 as stated fails for the transcript query: a session that exists
    with an empty log and a session that does not exist get the same
    answer, while the results query tells them apart. *)
Lemma transcript_not_found_not_distinct :
  let m := with_session_results {["s" := []]} init in
  get_session_transcript (λ _, "") "s" "text" m
  = get_session_transcript (λ _, "") "missing" "text" m
  ∧ get_session_transcript (λ _, "") "s" "text" m = Ok None
  ∧ get_session_results "s" false m = Some []
  ∧ get_session_results "missing" false m = None.
Proof. vm_compute. done. Qed.

(** ** The request stream of the adapter *)

Lemma audio_loop_yields (audio_stream : list (list ascii)) :
  ∀ sent, yielded (audio_loop sent audio_stream)
          = chunk_request <$> List.filter nonempty_chunk audio_stream.
Proof.
  induction audio_stream as [|chunk rest IH]; intros sent; [done|].
  destruct chunk as [|c chunk]; simpl; [apply IH|].
  destruct (Nat.eqb _ 0); simpl; by rewrite IH.
Qed.

Lemma no_options_among_chunks (chunks : list (list ascii)) :
  List.filter is_session_options (chunk_request <$> chunks) = [].
Proof. induction chunks as [|c l IH]; [done|]. simpl. exact IH. Qed.

Lemma recognize_stream_requests rt settings up audio_stream language diarization rate :
  request_events (recognize_stream rt settings up audio_stream language diarization rate) = []
  ∨ ∃ opts,
      request_events (recognize_stream rt settings up audio_stream language diarization rate)
      = request_generator opts audio_stream
      ∧ audio_encoding opts = LINEAR16_PCM
      ∧ audio_channel_count opts = 1
      ∧ sample_rate_hertz opts ∈ [8000; 16000; 48000]
      ∧ profanity_filter opts = true
      ∧ length (language_code opts) = 1%nat
      ∧ audio_processing_type opts = REAL_TIME.
Proof.
  unfold recognize_stream.
  destruct (_ || _); [by left|].
  destruct (_build_auth_metadata settings); [|by left].
  destruct (ready_failure up); [by left|].
  right. eexists. split; [reflexivity|]. simpl. repeat split.
  case_bool_decide; [done|]. set_solver.
Qed.

(** C8: the requests the generator hands to the RPC are the configuration
    frame followed by one audio frame for every non-empty chunk of the
    input stream, in the order of the stream.  So the configuration frame
    is the first request and the only one of its kind, every later request
    is an audio frame with data, and there is no end-of-stream frame.
    Whenever [recognize_stream] calls the RPC it is with this generator,
    on the configuration built from the validated parameters. *)
Theorem request_stream_shape (session_options : StreamingOptions)
    (audio_stream : list (list ascii)) :
  let requests := yielded (request_generator session_options audio_stream) in
  requests = session_options_request session_options
             :: (chunk_request <$> List.filter nonempty_chunk audio_stream)
  ∧ length (List.filter is_session_options requests) = 1%nat
  ∧ (∀ r, r ∈ tail requests → ∃ data, r = chunk_request data ∧ data ≠ [])
  ∧ (∀ r, r ∈ requests → r ≠ eou_request ∧ ∀ ms, r ≠ silence_chunk_request ms)
  ∧ (∀ rt settings up language diarization rate,
       let run := recognize_stream rt settings up audio_stream language diarization rate in
       request_events run = []
       ∨ ∃ opts, request_events run = request_generator opts audio_stream).
Proof.
  intros requests.
  assert (Hreq : requests = session_options_request session_options
                   :: (chunk_request <$> List.filter nonempty_chunk audio_stream)).
  { unfold requests, request_generator. simpl. by rewrite audio_loop_yields. }
  assert (Htail : ∀ r, r ∈ tail requests → ∃ data, r = chunk_request data ∧ data ≠ []).
  { rewrite Hreq. simpl. intros r Hr.
    apply list_elem_of_fmap in Hr as (data & -> & Hdata).
    exists data. split; [done|].
    apply list_elem_of_In, filter_In in Hdata as [_ Hne]. by destruct data. }
  split; [done|]. split; [|split; [done|split]].
  - rewrite Hreq. simpl. by rewrite no_options_among_chunks.
  - intros r Hr. rewrite Hreq in Hr, Htail. simpl in Htail.
    apply elem_of_cons in Hr as [->|Hr]; [done|].
    destruct (Htail r Hr) as (data & -> & _). done.
  - intros rt settings up language diarization rate run.
    destruct (recognize_stream_requests rt settings up audio_stream
                language diarization rate) as [?|(opts & ? & _)]; [by left|].
    right. by exists opts.
Qed.

(** ** Authorization *)

(** C7, as the adapter has it: the API key is used when it is set, and
    nothing else is sent then; otherwise the bearer token is used, and the
    folder header is added when a folder id is set and left out when it is
    not; with neither a key nor a token the metadata cannot be built, and
    [recognize_stream] (with gRPC at hand) yields the one record
    "Authorization failed" without opening the channel or sending a
    request. *)
Theorem auth_metadata_preference (settings : Settings) :
  (is_set (yandex_api_key settings) = true →
   _build_auth_metadata settings
   = Ok [("authorization", "Api-Key " +:+ default "" (yandex_api_key settings))])
  ∧ (is_set (yandex_api_key settings) = false →
     is_set (yandex_iam_token settings) = true →
     let bearer := ("authorization", "Bearer " +:+ default "" (yandex_iam_token settings)) in
     (is_set (yandex_folder_id settings) = true →
      _build_auth_metadata settings
      = Ok [bearer; ("x-folder-id", default "" (yandex_folder_id settings))])
     ∧ (is_set (yandex_folder_id settings) = false →
        _build_auth_metadata settings = Ok [bearer]))
  ∧ (is_set (yandex_api_key settings) = false →
     is_set (yandex_iam_token settings) = false →
     ∃ msg, _build_auth_metadata settings = Raise (ValueError msg)
       ∧ ∀ rt up audio_stream language diarization rate,
           streaming_available rt →
           let run := recognize_stream rt settings up audio_stream language
                        diarization rate in
           records run = [error_record [("error", PStr "Authorization failed");
                                        ("details", PStr msg)]]
           ∧ channel_opened run = false
           ∧ request_events run = []).
Proof.
  unfold _build_auth_metadata. split; [|split].
  - by intros ->.
  - intros -> ->. simpl. split; by intros ->.
  - intros Hk Ht. rewrite Hk, Ht. eexists. split; [reflexivity|].
    intros rt up audio_stream language diarization rate (Hg & Hr & Hs).
    unfold recognize_stream, _build_auth_metadata. rewrite Hg, Hr, Hs, Hk, Ht. done.
Qed.

Lemma auth_metadata_preference_witness :
  let key_only := {| yandex_api_key := Some "k"; yandex_iam_token := Some "t";
                     yandex_folder_id := Some "f" |} in
  let token_folder := {| yandex_api_key := None; yandex_iam_token := Some "t";
                         yandex_folder_id := Some "f" |} in
  let nothing := {| yandex_api_key := None; yandex_iam_token := Some "";
                    yandex_folder_id := Some "f" |} in
  _build_auth_metadata key_only = Ok [("authorization", "Api-Key k")]
  ∧ _build_auth_metadata token_folder
    = Ok [("authorization", "Bearer t"); ("x-folder-id", "f")]
  ∧ ∃ msg, _build_auth_metadata nothing = Raise (ValueError msg).
Proof.
  split; [|split].
  - exact (proj1 (auth_metadata_preference
                    {| yandex_api_key := Some "k"; yandex_iam_token := Some "t";
                       yandex_folder_id := Some "f" |}) eq_refl).
  - exact (proj1 (proj1 (proj2 (auth_metadata_preference
                    {| yandex_api_key := None; yandex_iam_token := Some "t";
                       yandex_folder_id := Some "f" |})) eq_refl eq_refl) eq_refl).
  - destruct (proj2 (proj2 (auth_metadata_preference
                    {| yandex_api_key := None; yandex_iam_token := Some "";
                       yandex_folder_id := Some "f" |})) eq_refl eq_refl)
      as (msg & Hmsg & _).
    by exists msg.
Defined.

(** C7 as stated fails on the folder header: with a bearer token and no
    folder id the metadata is built all the same, without the header, and
    the stream goes on to open the channel (a warning is logged). *)
Lemma folder_header_not_mandatory :
  let settings := {| yandex_api_key := None; yandex_iam_token := Some "t";
                     yandex_folder_id := None |} in
  let rt := {| GRPC_AVAILABLE := true; RecognizerStub_imported := true;
               StreamingRequest_imported := true |} in
  let up := {| ready_failure := None; responses := []; stream_failure := None |} in
  let run := recognize_stream rt settings up [] "ru" true 16000 in
  _build_auth_metadata settings = Ok [("authorization", "Bearer t")]
  ∧ channel_opened run = true
  ∧ records run = []
  ∧ length (warnings run) = 1%nat.
Proof. vm_compute. done. Qed.

(** ** Backend errors *)

Lemma failure_record_is_error (f : Failure) : is_error_record (failure_record f).
Proof. destruct f; apply lookup_insert_eq. Qed.

Lemma failure_record_no_text (f : Failure) : failure_record f !! "text" = None.
Proof.
  destruct f; unfold failure_record, error_record; simpl;
    repeat (rewrite lookup_insert_ne; [|discriminate]); apply lookup_empty.
Qed.

Lemma parsed_record_not_error (response : StreamingResponse) (r : gmap string pyval) :
  r ∈ _process_single_response response → ¬ is_error_record r.
Proof.
  unfold _process_single_response, is_error_record. intros Hin.
  repeat (apply elem_of_app in Hin as [Hin|Hin]);
    apply list_elem_of_In, in_map_iff in Hin as (alt & <- & _);
    unfold result_record; rewrite lookup_insert_eq; discriminate.
Qed.

(** The callback leaves the world as it is when the record has no text. *)
Lemma result_callback_without_text fromisoformat session_id result now w :
  result !! "text" = None →
  result_callback fromisoformat session_id result now w = w.
Proof.
  intros Hnone. unfold result_callback, py_get_default. rewrite Hnone. reflexivity.
Qed.

(** C4, as the code has it: when the RPC breaks in mid-stream,
    [recognize_stream] yields the records parsed so far, none of them an
    error record, then exactly one error record with the code and the
    details, and closes the channel once; that record has no text, so
    [result_callback] skips it: nothing is stored, nothing is sent to any
    client, and the status of the session stays as it was. *)
Theorem backend_error_record_is_skipped (rt : Runtime) (settings : Settings)
    (up : Upstream) (audio_stream : list (list ascii)) (language : string)
    (diarization : bool) (rate : Z) (code : string) (details : pyval)
    (metadata : list (string * string)) :
  streaming_available rt →
  _build_auth_metadata settings = Ok metadata →
  ready_failure up = None →
  stream_failure up = Some (RpcError code details) →
  let run := recognize_stream rt settings up audio_stream language diarization rate in
  let parsed := List.concat (List.map _process_single_response (responses up)) in
  records run = (parsed ++ [failure_record (RpcError code details)])%list
  ∧ is_error_record (failure_record (RpcError code details))
  ∧ (∀ r, r ∈ parsed → ¬ is_error_record r)
  ∧ channel_closed run = 1%nat
  ∧ (∀ fromisoformat session_id now w,
       result_callback fromisoformat session_id
         (failure_record (RpcError code details)) now w = w).
Proof.
  intros (Hg & Hr & Hs) Hauth Hready Hfail run parsed.
  split; [|split; [apply failure_record_is_error|split; [|split]]].
  - unfold run, recognize_stream. rewrite Hg, Hr, Hs, Hauth, Hready, Hfail. reflexivity.
  - intros r Hin. unfold parsed in Hin.
    apply list_elem_of_In, in_concat in Hin as (l & Hl & Hrl).
    apply in_map_iff in Hl as (response & <- & _).
    apply (parsed_record_not_error response). by apply list_elem_of_In.
  - unfold run, recognize_stream. rewrite Hg, Hr, Hs, Hauth, Hready. reflexivity.
  - intros. apply result_callback_without_text, failure_record_no_text.
Qed.

Lemma backend_error_record_is_skipped_witness :
  let rt := {| GRPC_AVAILABLE := true; RecognizerStub_imported := true;
               StreamingRequest_imported := true |} in
  let settings := {| yandex_api_key := Some "k"; yandex_iam_token := None;
                     yandex_folder_id := None |} in
  let hello := {| alt_text := "hello"; alt_confidence := PNone; alt_words := [] |} in
  let up := {| ready_failure := None;
               responses := [{| partial := [hello]; final := []; final_refinement := [] |}];
               stream_failure := Some (RpcError "UNAVAILABLE" (PStr "down")) |} in
  length (records (recognize_stream rt settings up [] "ru" true 16000)) = 2%nat.
Proof.
  pose proof (backend_error_record_is_skipped
    {| GRPC_AVAILABLE := true; RecognizerStub_imported := true;
       StreamingRequest_imported := true |}
    {| yandex_api_key := Some "k"; yandex_iam_token := None; yandex_folder_id := None |}
    {| ready_failure := None;
       responses := [{| partial := [{| alt_text := "hello"; alt_confidence := PNone;
                                       alt_words := [] |}];
                        final := []; final_refinement := [] |}];
       stream_failure := Some (RpcError "UNAVAILABLE" (PStr "down")) |}
    [] "ru" true 16000 "UNAVAILABLE" (PStr "down") [("authorization", "Api-Key k")]
    (conj eq_refl (conj eq_refl eq_refl)) eq_refl eq_refl eq_refl) as [Hrec _].
  cbv zeta in Hrec |- *. rewrite Hrec. reflexivity.
Defined.

(** C4 as stated fails: two clients are connected to a session; the error
    record of a broken RPC reaches [result_callback]; no client has
    received an error message, and the status of the session is still
    "connected". *)
Lemma backend_error_not_broadcast :
  let w0 := {| manager := init; net := ∅ |} in
  let w1 := (on_open 1 "s" ∅ 10 w0).2 in
  let w2 := (on_open 2 "s" ∅ 11 w1).2 in
  let w3 := result_callback (λ _, None) "s"
              (failure_record (RpcError "UNAVAILABLE" (PStr "down"))) 12 w2 in
  has_active_clients "s" (manager w3) = true
  ∧ error_messages <$> net w3 !! 1%nat = Some 0%nat
  ∧ error_messages <$> net w3 !! 2%nat = Some 0%nat
  ∧ status <$> transcription_sessions (manager w3) !! "s" = Some "connected".
Proof. vm_compute. repeat split. Qed.

(** ** Ending a session *)

Lemma on_message_manager py_repr h data now fault w :
  manager (on_message py_repr h data now fault w).2 = manager w
  ∨ manager (on_message py_repr h data now fault w).2
    = manager (handle_audio_chunk py_repr h (message_of data) now fault w).2
  ∨ manager (on_message py_repr h data now fault w).2
    = manager (handle_end_session h fault w).2.
Proof.
  unfold on_message, message_of, send.
  destruct data as [|v]; [by left|].
  destruct v as [| | | | | | | |message]; try by left.
  destruct (handle_audio_chunk py_repr h message now fault w) as [[?|?] wa] eqn:Ea;
    destruct (handle_end_session h fault w) as [[?|?] wb] eqn:Eb; simpl;
    repeat split_match; auto.
Qed.

(** Whatever the state of the session, an [end_session] message calls
    the service the registry holds for it: the handler consults neither a
    flag nor the service's own state before the call. *)
Lemma end_session_message_calls_service h w svc :
  get_service (h_session_id h) (manager w) = Some svc →
  svc_end_calls
    <$> get_service (h_session_id h) (manager (handle_end_session h None w).2)
  = Some (svc_end_calls svc ++ [h_session_id h])%list.
Proof.
  intros Hsvc.
  unfold handle_end_session, mbind, M_bind, read, update, send, get_service in *.
  cbn. rewrite Hsvc. cbn. unfold set_service, with_services. cbn.
  rewrite lookup_insert_eq. cbn. unfold end_session. by case_decide.
Qed.


(** ** The chunk counter *)

(** C10: the counter is meant to count the chunks that carry audio, and
    an empty [audio_data] string is indeed treated as no audio; but an
    empty string in the legacy field [audio_bytes] is not [None], so the
    message is decoded to zero bytes, forwarded, and counted.  A client
    sends [{"type": "audio_chunk", "audio_bytes": "", "is_final": true}]
    and then [end_session]: a chunk without bytes went to the service, the
    counter is 1, and the acknowledgement reports one chunk; the same
    message with the empty string in [audio_data] is not counted. *)
Theorem empty_legacy_chunk_is_counted :
  let legacy := Json (PDict (<["type" := PStr "audio_chunk"]>
                            (<["audio_bytes" := PStr ""]>
                            (<["is_final" := PBool true]> ∅)))) in
  let current := Json (PDict (<["type" := PStr "audio_chunk"]>
                             (<["audio_data" := PStr ""]>
                             (<["is_final" := PBool true]> ∅)))) in
  let after evs := world (run (λ _, "") (λ _, None) (Open 1 "s" ∅ 10 :: evs) start) in
  let w1 := after [] in
  let w2 := after [Message 1 legacy 11 None] in
  let w3 := after [Message 1 legacy 11 None; Message 1 end_session_message 12 None] in
  let w2' := after [Message 1 current 11 None] in
  processed "s" w1 = 0
  ∧ processed "s" w2 = 1
  ∧ (List.map (λ c, audio_data c.2) <$> (svc_forwarded <$> services (manager w2) !! "s"))
    = Some [[]]
  ∧ (sock_sent <$> net w3 !! 1%nat)
    = Some [connection_established "s" "yandex" "ru-RU" true (Some 1);
            session_ended "s" 1]
  ∧ processed "s" w2' = 0.
Proof. vm_compute. repeat split. Qed.

(** * Further properties of the registry *)

(** X1: the channel [connect] picks for a client that asks for none is a
    positive integer that no client of the session uses, and every
    smaller positive integer is in use. *)
Theorem free_channel_smallest_unused (used : gset Z) :
  1 ≤ free_channel used
  ∧ (free_channel used ∉ used)
  ∧ (∀ j, 1 ≤ j < free_channel used → j ∈ used).
Proof.
  unfold free_channel.
  destruct (free_channel_loop_spec used (S (size used)) 1 used) as (r & -> & ? & ? & ?);
    [done|lia|done].
Qed.

Lemma connect_result websocket session_id channel now m cid m' :
  connect websocket session_id channel now m = (Ok cid, m') →
  ∃ conns chans ch,
    active_connections (init_containers session_id now m) !! session_id = Some conns
    ∧ client_channels (init_containers session_id now m) !! session_id = Some chans
    ∧ cid = "c" +:+ pretty (S (size conns))
    ∧ ch = match channel with Some c => c | None => free_channel (map_img chans) end
    ∧ active_connections m'
      = <[session_id := <[cid := websocket]> conns]>
          (active_connections (init_containers session_id now m))
    ∧ client_channels m'
      = <[session_id := <[cid := ch]> chans]>
          (client_channels (init_containers session_id now m)).
Proof.
  unfold connect. set (m0 := init_containers session_id now m). cbv zeta.
  destruct (active_connections m0 !! session_id) as [conns|]; [|done].
  destruct (client_channels m0 !! session_id) as [chans|] eqn:Hch.
  - destruct channel as [c|]; unfold py_index; simpl; rewrite ?Hch; simpl;
      rewrite ?Hch; intros Heq; injection Heq as <- <-; by eexists conns, chans, _.
  - destruct channel as [c|]; unfold py_index; simpl; rewrite ?Hch; simpl;
      rewrite ?Hch; done.
Qed.

(** X2: when a client connects without asking for a channel, the channel
    it is given is positive and differs from the channel of every other
    client the session has after the call. *)
Theorem connect_channel_is_fresh websocket session_id now m cid m' :
  connect websocket session_id None now m = (Ok cid, m') →
  ∃ ch, get_client_channel session_id cid m' = Some ch
        ∧ 1 ≤ ch
        ∧ ∀ other z, other ≠ cid →
                     get_client_channel session_id other m' = Some z → z ≠ ch.
Proof.
  intros Hconn.
  destruct (connect_result _ _ _ _ _ _ _ Hconn)
    as (conns & chans & ch & _ & _ & _ & -> & _ & Hchans).
  destruct (free_channel_smallest_unused (map_img chans)) as (Hpos & Hnot & _).
  exists (free_channel (map_img chans)). unfold get_client_channel. rewrite Hchans.
  rewrite lookup_insert_eq. simpl. rewrite lookup_insert_eq.
  split; [done|]. split; [done|].
  intros other z Hne. rewrite lookup_insert_ne; [|done]. intros Hz ->.
  apply Hnot. apply elem_of_map_img. by exists other.
Qed.

Lemma connect_channel_is_fresh_witness :
  ∃ ch, get_client_channel "s" "c2"
          (connect 2 "s" None 0 (connect 1 "s" (Some 1) 0 init).2).2 = Some ch
        ∧ 1 ≤ ch
        ∧ ∀ other z, other ≠ "c2" →
            get_client_channel "s" other
              (connect 2 "s" None 0 (connect 1 "s" (Some 1) 0 init).2).2 = Some z →
            z ≠ ch.
Proof.
  apply (connect_channel_is_fresh 2 "s" 0 (connect 1 "s" (Some 1) 0 init).2 "c2").
  vm_compute. reflexivity.
Defined.

(** X3: a channel a client asks for is registered as asked, whether or
    not another client of the session already has it. *)
Theorem connect_keeps_requested_channel websocket session_id ch now m cid m' :
  connect websocket session_id (Some ch) now m = (Ok cid, m') →
  get_client_channel session_id cid m' = Some ch.
Proof.
  intros Hconn.
  destruct (connect_result _ _ _ _ _ _ _ Hconn)
    as (conns & chans & ch' & _ & _ & _ & -> & _ & Hchans).
  unfold get_client_channel. rewrite Hchans, lookup_insert_eq. simpl.
  by rewrite lookup_insert_eq.
Qed.

Lemma connect_keeps_requested_channel_witness :
  get_client_channel "s" "c2"
    (connect 2 "s" (Some 7) 0 (connect 1 "s" (Some 7) 0 init).2).2 = Some 7.
Proof.
  apply (connect_keeps_requested_channel 2 "s" 7 0 (connect 1 "s" (Some 7) 0 init).2 "c2").
  vm_compute. reflexivity.
Defined.

(** ** The client containers stay aligned *)

Lemma init_containers_aligned session_id now m :
  aligned m → aligned (init_containers session_id now m).
Proof.
  intros Hal sid. unfold init_containers.
  destruct (decide (is_Some (active_connections m !! session_id))) as [Hs|Hn].
  - specialize (Hal sid). by repeat case_decide.
  - assert (Hgoal :
      match <[session_id := ∅]> (active_connections m) !! sid,
            <[session_id := ∅]> (client_channels m) !! sid with
      | Some conns, Some chans =>
          ∀ cid : string, is_Some (conns !! cid) ↔ is_Some (chans !! cid)
      | None, None => True
      | _, _ => False
      end).
    { destruct (decide (sid = session_id)) as [->|Hne].
      - rewrite !lookup_insert_eq. intros cid. by rewrite !lookup_empty.
      - rewrite !lookup_insert_ne by done. apply Hal. }
    by repeat case_decide.
Qed.

Lemma init_containers_active session_id now m :
  is_Some (active_connections (init_containers session_id now m) !! session_id).
Proof.
  unfold init_containers.
  destruct (decide (is_Some (active_connections m !! session_id))) as [Hs|Hn].
  - by repeat case_decide.
  - repeat case_decide; simpl; rewrite lookup_insert_eq; by eexists.
Qed.

Lemma connect_aligned websocket session_id channel now m :
  aligned m →
  (∃ cid, (connect websocket session_id channel now m).1 = Ok cid)
  ∧ aligned (connect websocket session_id channel now m).2.
Proof.
  intros Hal. apply (init_containers_aligned session_id now) in Hal.
  pose proof (init_containers_active session_id now m) as [conns Hc].
  unfold connect. set (m0 := init_containers session_id now m) in *. cbv zeta.
  rewrite Hc. pose proof (Hal session_id) as Hsid. rewrite Hc in Hsid.
  destruct (client_channels m0 !! session_id) as [chans|] eqn:Hch; [|done].
  assert (Hch' : ∃ ch,
            match channel with
            | Some ch => Ok ch
            | None => chans ← py_index (client_channels m0) session_id;
                      Ok (free_channel (map_img chans))
            end = Ok ch).
  { destruct channel as [ch|]; [by eexists|]. unfold py_index. rewrite Hch.
    by eexists. }
  destruct Hch' as [ch ->]. simpl. rewrite Hch. simpl. split; [by eexists|].
  intros sid. simpl. destruct (decide (sid = session_id)) as [->|Hne].
  - rewrite !lookup_insert_eq. intros cid.
    destruct (decide (cid = "c" +:+ pretty (S (size conns)))) as [->|Hnc].
    + rewrite !lookup_insert_eq. split; by eexists.
    + rewrite !lookup_insert_ne by done. apply Hsid.
  - rewrite !lookup_insert_ne by done. apply Hal.
Qed.

Lemma disconnect_aligned session_id client_id m :
  aligned m → aligned (disconnect session_id client_id m).
Proof.
  intros Hal sid. pose proof (Hal sid) as Hsid. pose proof (Hal session_id) as Hs.
  unfold disconnect. destruct client_id as [cid|].
  - destruct (active_connections m !! session_id) as [conns|] eqn:Hc;
      destruct (client_channels m !! session_id) as [chans|] eqn:Hch; try done.
    + simpl. rewrite Hch. simpl. rewrite lookup_insert_eq.
      destruct (decide (size (delete cid conns) = 0%nat)); simpl.
      * destruct (decide (sid = session_id)) as [->|Hne].
        -- by rewrite !lookup_delete_eq.
        -- rewrite !lookup_delete_ne by done. rewrite !lookup_insert_ne by done.
           apply Hsid.
      * destruct (decide (sid = session_id)) as [->|Hne].
        -- rewrite !lookup_insert_eq. intros c.
           destruct (decide (c = cid)) as [->|Hnc].
           ++ by rewrite !lookup_delete_eq.
           ++ rewrite !lookup_delete_ne by done. apply Hs.
        -- rewrite !lookup_insert_ne by done. apply Hsid.
    + simpl. rewrite ?Hch. simpl. rewrite ?Hc. apply Hsid.
  - simpl. destruct (decide (sid = session_id)) as [->|Hne].
    + by rewrite !lookup_delete_eq.
    + rewrite !lookup_delete_ne by done. apply Hsid.
Qed.

Lemma call_aligned c m : aligned m → aligned (call c m).
Proof.
  destruct c as [ws sid ch now|sid cid|sid r|sid k ch|sid svc]; simpl; intros Hal.
  - by apply connect_aligned.
  - by apply disconnect_aligned.
  - exact Hal.
  - exact Hal.
  - exact Hal.
Qed.

Lemma calls_aligned cs : ∀ m, aligned m → aligned (calls cs m).
Proof.
  induction cs as [|c cs IH]; intros m Hal; [done|].
  apply IH. by apply call_aligned.
Qed.

(** X4: in every state the registry reaches from its initial state by
    connects, disconnects, stored results, chunk mappings and services,
    the connection container and the channel container of a session exist
    together and hold the same client ids; so [connect] never raises
    there, whatever session and channel it is called with. *)
Theorem connect_never_raises (cs : list RegistryCall) (websocket : nat)
    (session_id : string) (channel : option Z) (now : Z) :
  aligned (calls cs init)
  ∧ ∃ cid, (connect websocket session_id channel now (calls cs init)).1 = Ok cid.
Proof.
  assert (Hal : aligned (calls cs init)).
  { apply calls_aligned. intros sid. simpl. by rewrite !lookup_empty. }
  split; [done|]. by apply connect_aligned.
Qed.

(** ** Disconnecting *)

Lemma disconnect_keeps session_id client_id m :
  session_results (disconnect session_id client_id m) = session_results m
  ∧ transcription_sessions (disconnect session_id client_id m) = transcription_sessions m
  ∧ services (disconnect session_id client_id m) = services m
  ∧ chunk_channel_map (disconnect session_id client_id m) = chunk_channel_map m.
Proof.
  unfold disconnect. destruct client_id as [cid|]; [|done].
  cbv zeta. repeat split_match; done.
Qed.

(** X5: [disconnect], of one client or of the whole session, removes the
    client(s) from the session and nothing else: the client has no channel
    afterwards, the other sessions keep their clients and channels, and
    the results, the metadata, the services and the chunk-channel map of
    the registry are as before. *)
Theorem disconnect_removes_only_clients (session_id : string) (client_id : option string)
    (m : ConnectionManager) :
  let m' := disconnect session_id client_id m in
  (∀ cid, client_id = Some cid ∨ client_id = None →
          get_client_channel session_id cid m' = None)
  ∧ (∀ other cid, other ≠ session_id →
       get_client_channel other cid m' = get_client_channel other cid m
       ∧ active_connections m' !! other = active_connections m !! other)
  ∧ session_results m' = session_results m
  ∧ transcription_sessions m' = transcription_sessions m
  ∧ services m' = services m
  ∧ chunk_channel_map m' = chunk_channel_map m.
Proof.
  intros m'. split; [|split; [|apply disconnect_keeps]].
  - intros cid Hcid. unfold m', get_client_channel, disconnect.
    destruct client_id as [cid'|].
    + destruct Hcid as [[= ->]|?]; [|done].
      destruct (active_connections m !! session_id) as [conns|] eqn:Hc;
        destruct (client_channels m !! session_id) as [chans|] eqn:Hch; simpl;
        rewrite ?Hch; simpl; rewrite ?lookup_insert_eq, ?Hc; simpl;
        try case_decide; simpl;
        rewrite ?lookup_delete_eq, ?lookup_insert_eq, ?Hch; simpl;
        rewrite ?lookup_delete_eq; done.
    + simpl. by rewrite lookup_delete_eq.
  - intros other cid Hne. unfold m', get_client_channel, disconnect.
    destruct client_id as [cid'|].
    + destruct (active_connections m !! session_id) as [conns|] eqn:Hc;
        destruct (client_channels m !! session_id) as [chans|] eqn:Hch; simpl;
        rewrite ?Hch; simpl; rewrite ?lookup_insert_eq, ?Hc; simpl;
        try case_decide; simpl;
        rewrite ?lookup_delete_ne by done; rewrite ?lookup_insert_ne by done; done.
    + simpl. by rewrite !lookup_delete_ne.
Qed.

(** X6: after the only client of a session has disconnected the session
    has no connection container left and no active client; after a client
    has disconnected while another one stays, the session still has active
    clients. *)
Theorem disconnect_last_client (session_id cid : string) (m : ConnectionManager)
    (conns : gmap string nat) :
  active_connections m !! session_id = Some conns →
  let m' := disconnect session_id (Some cid) m in
  (size (delete cid conns) = 0%nat →
     active_connections m' !! session_id = None
     ∧ has_active_clients session_id m' = false)
  ∧ (size (delete cid conns) ≠ 0%nat →
     active_connections m' !! session_id = Some (delete cid conns)
     ∧ has_active_clients session_id m' = true).
Proof.
  intros Hc m'. unfold m', has_active_clients, disconnect. rewrite Hc.
  destruct (client_channels m !! session_id) as [chans|] eqn:Hch; simpl;
    rewrite ?Hch; simpl; rewrite lookup_insert_eq;
    (split; intros Hsize; case_decide; try done; simpl;
     rewrite ?lookup_delete_eq, ?lookup_insert_eq; [done|];
     split; [done|]; by rewrite bool_decide_eq_false_2).
Qed.

Lemma disconnect_last_client_witness :
  let m := (connect 2 "s" None 0 (connect 1 "s" None 0 init).2).2 in
  has_active_clients "s" (disconnect "s" (Some "c1") m) = true
  ∧ has_active_clients "s"
      (disconnect "s" (Some "c2") (disconnect "s" (Some "c1") m)) = false.
Proof.
  split.
  - refine (proj2 (proj2 (disconnect_last_client "s" "c1"
             (connect 2 "s" None 0 (connect 1 "s" None 0 init).2).2
             {["c1" := 1%nat; "c2" := 2%nat]} _) _)); vm_compute; [reflexivity|lia].
  - refine (proj2 (proj1 (disconnect_last_client "s" "c2"
             (disconnect "s" (Some "c1")
                (connect 2 "s" None 0 (connect 1 "s" None 0 init).2).2)
             {["c2" := 2%nat]} _) _)); vm_compute; reflexivity.
Defined.

(** ** The result log *)

(** X7: a stored result is the last entry of what the results query
    returns with partial results included, after everything the session
    held before (a session without a log gets one); the logs of the other
    sessions are as before. *)
Theorem add_then_get_results (session_id : string) (result : gmap string pyval)
    (m : ConnectionManager) :
  get_session_results session_id true (add_transcription_result session_id result m)
  = Some (default [] (get_session_results session_id true m) ++ [result])%list
  ∧ ∀ other include_partial, other ≠ session_id →
      get_session_results other include_partial
        (add_transcription_result session_id result m)
      = get_session_results other include_partial m.
Proof.
  unfold get_session_results, add_transcription_result. simpl. split.
  - rewrite lookup_insert_eq. by destruct (session_results m !! session_id).
  - intros other include_partial Hne. by rewrite lookup_insert_ne.
Qed.

Lemma filter_is_sublist {A} (f : A → bool) (l : list A) :
  List.filter f l `sublist_of` l.
Proof.
  induction l as [|x l IH]; [constructor|]. simpl.
  destruct (f x); [by apply sublist_skip|by apply sublist_cons].
Qed.

Lemma filter_all {A} (f : A → bool) (l : list A) :
  Forall (λ x, f x = true) l → List.filter f l = l.
Proof.
  induction 1 as [|x l Hx _ IH]; [done|]. simpl. rewrite Hx. by rewrite IH.
Qed.

(** X8: with partial results left out, the results query returns the
    final records of the log in their order: every record returned is
    final, every final record of the log is returned, and a log of final
    records only is returned whole. *)
Theorem final_results_only (session_id : string) (m : ConnectionManager)
    (log : list (gmap string pyval)) :
  session_results m !! session_id = Some log →
  ∃ finals,
    get_session_results session_id false m = Some finals
    ∧ finals `sublist_of` log
    ∧ (∀ r, r ∈ finals ↔ r ∈ log ∧ is_final_record r = true)
    ∧ (Forall (λ r, is_final_record r = true) log → finals = log).
Proof.
  intros Hlog. unfold get_session_results. rewrite Hlog. eexists. split; [reflexivity|].
  split; [|split].
  - apply filter_is_sublist.
  - intros r. rewrite !list_elem_of_In, filter_In. reflexivity.
  - apply (filter_all is_final_record).
Qed.

Lemma final_results_only_witness :
  ∃ finals,
    get_session_results "s" false
      (with_session_results
         {["s" := [text_record "a" true; text_record "b" false]]} init) = Some finals
    ∧ finals `sublist_of` [text_record "a" true; text_record "b" false]
    ∧ (∀ r, r ∈ finals ↔
            r ∈ [text_record "a" true; text_record "b" false]
            ∧ is_final_record r = true)
    ∧ (Forall (λ r, is_final_record r = true)
         [text_record "a" true; text_record "b" false] →
       finals = [text_record "a" true; text_record "b" false]).
Proof.
  apply (final_results_only "s"
           (with_session_results
              {["s" := [text_record "a" true; text_record "b" false]]} init)).
  reflexivity.
Defined.

(** ** What a run of the gateway keeps *)

Lemma grows_same m m' :
  session_results m' = session_results m →
  transcription_sessions m' = transcription_sessions m → grows m m'.
Proof.
  intros Hr Ht. unfold grows. rewrite Hr, Ht. split; [|split].
  - intros sid log Hlog. exists []. by rewrite app_nil_r.
  - intros sid meta Hmeta. exists meta. split; [done|]. split; [done|]. split; [done|lia].
  - intros sid Hnone. by left.
Qed.

Lemma grows_trans m1 m2 m3 : grows m1 m2 → grows m2 m3 → grows m1 m3.
Proof.
  intros (Hr12 & Ht12 & Hn12) (Hr23 & Ht23 & Hn23). split; [|split].
  - intros sid log Hlog. destruct (Hr12 sid log Hlog) as (more & H2).
    destruct (Hr23 sid _ H2) as (more' & H3). exists (more ++ more')%list.
    by rewrite app_assoc.
  - intros sid meta Hmeta. destruct (Ht12 sid meta Hmeta) as (meta2 & H2 & ? & ? & ?).
    destruct (Ht23 sid meta2 H2) as (meta3 & H3 & ? & ? & ?).
    exists meta3. split; [done|]. split; [congruence|]. split; [congruence|lia].
  - intros sid Hnone. destruct (Hn12 sid Hnone) as [H2|(meta2 & H2 & Hs & Hc)].
    + by apply Hn23.
    + destruct (Ht23 sid meta2 H2) as (meta3 & H3 & ? & ? & ?).
      right. exists meta3. split; [done|]. split; [congruence|lia].
Qed.

Lemma init_containers_grows session_id now m :
  grows m (init_containers session_id now m).
Proof.
  unfold init_containers. split; [|split].
  - intros sid log Hlog. exists []. rewrite app_nil_r.
    repeat case_decide; simpl; try done.
    all: destruct (decide (sid = session_id)) as [->|Hne];
      [match goal with H : ¬ is_Some _ |- _ => destruct H; by eexists end
      |by rewrite lookup_insert_ne].
  - intros sid meta Hmeta. exists meta. split; [|split; [done|split; [done|lia]]].
    repeat case_decide; simpl; try done.
    all: destruct (decide (sid = session_id)) as [->|Hne];
      [match goal with H : ¬ is_Some (transcription_sessions _ !! _) |- _ =>
         destruct H; by eexists end
      |by rewrite lookup_insert_ne].
  - intros sid Hnone.
    destruct (decide (is_Some (active_connections m !! session_id)));
      destruct (decide (is_Some (transcription_sessions _ !! session_id)));
      simpl in *; repeat case_decide; simpl; try (by left).
    all: destruct (decide (sid = session_id)) as [->|Hne];
      [right; rewrite lookup_insert_eq; eexists; split; [done|]; split; [done|simpl; lia]
      |left; by rewrite lookup_insert_ne].
Qed.

Lemma connect_grows websocket session_id channel now m :
  grows m (connect websocket session_id channel now m).2.
Proof.
  apply (grows_trans _ (init_containers session_id now m));
    [apply init_containers_grows|].
  unfold connect. set (m0 := init_containers session_id now m). cbv zeta.
  destruct (active_connections m0 !! session_id); [|by apply grows_same].
  destruct channel as [ch|]; simpl.
  - destruct (client_channels m0 !! session_id); simpl; by apply grows_same.
  - unfold py_index. destruct (client_channels m0 !! session_id); simpl;
      by apply grows_same.
Qed.

Lemma disconnect_grows session_id client_id m :
  grows m (disconnect session_id client_id m).
Proof.
  destruct (disconnect_keeps session_id client_id m) as (Hr & Ht & _).
  by apply grows_same.
Qed.

Lemma add_transcription_result_grows session_id result m :
  grows m (add_transcription_result session_id result m).
Proof.
  unfold add_transcription_result. split; [|split]; simpl.
  - intros sid log Hlog. destruct (decide (sid = session_id)) as [->|Hne].
    + rewrite lookup_insert_eq, Hlog. by eexists.
    + rewrite lookup_insert_ne by done. exists []. by rewrite app_nil_r.
  - intros sid meta Hmeta. exists meta. split; [done|]. split; [done|]. split; [done|lia].
  - intros sid Hnone. by left.
Qed.

Lemma count_chunk_grows session_id m m' :
  count_chunk session_id m = Ok m' → grows m m'.
Proof.
  unfold count_chunk, py_index.
  destruct (transcription_sessions m !! session_id) as [meta0|] eqn:Hm; [|done].
  simpl. intros [= <-]. split; [|split]; simpl.
  - intros sid log Hlog. exists []. by rewrite app_nil_r.
  - intros sid meta Hmeta. destruct (decide (sid = session_id)) as [->|Hne].
    + rewrite lookup_insert_eq. eexists. split; [done|]. simpl.
      assert (meta = meta0) as -> by congruence. split; [done|]. split; [done|lia].
    + rewrite lookup_insert_ne by done. exists meta.
      split; [done|]. split; [done|]. split; [done|lia].
  - intros sid Hnone. destruct (decide (sid = session_id)) as [->|Hne]; [congruence|].
    left. by rewrite lookup_insert_ne.
Qed.

(** *** The combinators, for a reflexive and transitive relation *)

Section Within.

Variable R : ConnectionManager → ConnectionManager → Prop.
Hypothesis R_refl : ∀ m, R m m.
Hypothesis R_trans : ∀ m1 m2 m3, R m1 m2 → R m2 m3 → R m1 m3.

Lemma within_ret {A} (a : A) : within R (mret a).
Proof. intros w. apply R_refl. Qed.

Lemma within_raise {A} (e : exn) : within R (raise (A:=A) e).
Proof. intros w. apply R_refl. Qed.

Lemma within_lift {A} (r : res A) : within R (lift r).
Proof. intros w. apply R_refl. Qed.

Lemma within_read {A} (f : ConnectionManager → A) : within R (read f).
Proof. intros w. apply R_refl. Qed.

Lemma within_send message session_id client_id :
  within R (send message session_id client_id).
Proof. intros w. apply R_refl. Qed.

Lemma within_session_meta session_id : within R (session_meta session_id).
Proof. intros w. apply R_refl. Qed.

Lemma within_update f : (∀ m, R m (f m)) → within R (update f).
Proof. intros Hf w. apply Hf. Qed.

Lemma within_update_or_raise f :
  (∀ m m', f m = Ok m' → R m m') → within R (update_or_raise f).
Proof.
  intros Hf w. unfold update_or_raise. destruct (f (manager w)) eqn:E; simpl.
  - by apply Hf.
  - apply R_refl.
Qed.

Lemma within_bind {A B} (c : M A) (k : A → M B) :
  within R c → (∀ a, within R (k a)) → within R (c ≫= k).
Proof.
  intros Hc Hk w. unfold mbind, M_bind. specialize (Hc w).
  destruct (c w) as [[a|e] w'] eqn:E; simpl in *; [|done].
  apply (R_trans _ (manager w')); [done|apply Hk].
Qed.

Hypothesis R_map_chunk : ∀ sid chunk ch m, R m (map_chunk_channel sid chunk ch m).
Hypothesis R_set_service : ∀ sid svc m, R m (set_service sid svc m).
Hypothesis R_count : ∀ sid m m', count_chunk sid m = Ok m' → R m m'.
Hypothesis R_connect : ∀ ws sid ch now m, R m (connect ws sid ch now m).2.
Hypothesis R_disconnect : ∀ sid cid m, R m (disconnect sid cid m).
Hypothesis R_add : ∀ sid r m, R m (add_transcription_result sid r m).

Lemma within_map_chunk session_id chunk channel :
  within R (map_chunk session_id chunk channel).
Proof.
  destruct channel; [apply within_update; intros; apply R_map_chunk|apply within_raise].
Qed.

Lemma within_forward_chunk session_id chunk request fault :
  within R (forward_chunk session_id chunk request fault).
Proof.
  unfold forward_chunk. apply within_bind; [apply within_read|]. intros [svc|].
  - destruct fault; [apply within_raise|]. apply within_update. intros. apply R_set_service.
  - apply within_raise.
Qed.

Lemma within_handle_audio_chunk py_repr h message now fault :
  within R (handle_audio_chunk py_repr h message now fault).
Proof.
  unfold handle_audio_chunk. cbv zeta.
  destruct (py_or _ _) eqn:Hraw;
    try (apply within_bind; [try apply within_ret; try (apply within_bind;
           [apply within_lift|intros; apply within_ret])|intros];
         apply within_bind; [apply within_session_meta|intros];
         apply within_bind; [apply within_map_chunk|intros];
         apply within_bind; [apply within_lift|intros];
         apply within_bind; [apply within_forward_chunk|intros];
         apply within_update_or_raise; apply R_count).
  destruct (truthy _); [|apply within_ret].
  apply within_bind; [apply within_map_chunk|intros].
  apply within_bind; [apply within_lift|intros]. apply within_forward_chunk.
Qed.

Lemma within_handle_end_session h fault : within R (handle_end_session h fault).
Proof.
  unfold handle_end_session. cbv zeta.
  apply within_bind; [apply within_read|]. intros svc.
  apply within_bind.
  - destruct svc; [|apply within_ret].
    destruct fault; [apply within_raise|].
    apply within_bind; [apply within_update; intros; apply R_set_service|].
    intros. apply within_ret.
  - intros h'. apply within_bind; [apply within_read|]. intros chunks.
    apply within_bind; [apply within_send|]. intros. apply within_ret.
Qed.

Lemma on_message_within py_repr h data now fault w :
  R (manager w) (manager (on_message py_repr h data now fault w).2).
Proof.
  destruct (on_message_manager py_repr h data now fault w) as [->|[->| ->]].
  - apply R_refl.
  - apply within_handle_audio_chunk.
  - apply within_handle_end_session.
Qed.

Lemma on_close_within h w : R (manager w) (manager (on_close h w)).
Proof.
  unfold on_close. cbv zeta. cbn [manager].
  apply (R_trans _ (disconnect (h_session_id h) (Some (h_client_id h)) (manager w)));
    [apply R_disconnect|].
  destruct (_ && _); [|apply R_refl].
  destruct (get_service _ _); [apply R_set_service|apply R_refl].
Qed.

Lemma on_open_within websocket session_id query_params now w :
  R (manager w) (manager (on_open websocket session_id query_params now w).2).
Proof.
  unfold on_open. cbv zeta.
  destruct (int_param (query_params !! "sample_rate")) as [sample_rate|e];
    [|apply R_refl].
  destruct (int_param (query_params !! "channel")) as [channel|e]; [|apply R_refl].
  pose proof (R_connect websocket session_id channel now (manager w)) as Hc.
  destruct (connect websocket session_id channel now (manager w))
    as [[client_id|e] m]; cbn [snd manager] in *; [|done].
  apply (R_trans _ m); [done|apply R_set_service].
Qed.

Lemma end_stream_session_within session_id w :
  R (manager w) (manager (end_stream_session session_id w).2).
Proof.
  unfold end_stream_session.
  destruct (get_service session_id (manager w)); cbn [snd manager];
    [apply R_set_service|apply R_refl].
Qed.

Lemma result_callback_within fromisoformat session_id result now w :
  R (manager w) (manager (result_callback fromisoformat session_id result now w)).
Proof.
  unfold result_callback. repeat split_match; try apply R_refl; apply R_add.
Qed.

Lemma step_within py_repr fromisoformat g ev :
  R (manager (world g)) (manager (world (step py_repr fromisoformat g ev))).
Proof.
  destruct ev as [ws sid q now|ws data now fault|ws|sid|sid result now]; unfold step.
  - destruct (running g !! ws); [apply R_refl|].
    pose proof (on_open_within ws sid q now (world g)) as Hm.
    destruct (on_open ws sid q now (world g)) as [[h|e] w]; exact Hm.
  - destruct (running g !! ws) as [h|]; [|apply R_refl].
    pose proof (on_message_within py_repr h data now fault (world g)) as Hm.
    destruct (on_message py_repr h data now fault (world g)) as [[[] h'] w];
      cbn [snd world] in *; [exact Hm|].
    apply (R_trans _ (manager w)); [exact Hm|apply on_close_within].
  - destruct (running g !! ws) as [h|]; [|apply R_refl]. apply on_close_within.
  - apply end_stream_session_within.
  - apply result_callback_within.
Qed.

Lemma run_within py_repr fromisoformat evs :
  ∀ g, R (manager (world g)) (manager (world (run py_repr fromisoformat evs g))).
Proof.
  induction evs as [|ev evs IH]; intros g; [apply R_refl|].
  simpl. apply (R_trans _ (manager (world (step py_repr fromisoformat g ev))));
    [apply step_within|apply IH].
Qed.

End Within.

Lemma run_grows py_repr fromisoformat evs g :
  grows (manager (world g)) (manager (world (run py_repr fromisoformat evs g))).
Proof.
  apply (run_within grows).
  - intros m. by apply grows_same.
  - apply grows_trans.
  - intros. by apply grows_same.
  - intros. by apply grows_same.
  - apply count_chunk_grows.
  - apply connect_grows.
  - apply disconnect_grows.
  - apply add_transcription_result_grows.
Qed.

(** X9: the result log of a session is append-only: whatever happens at
    the gateway (clients coming and going, messages, management calls,
    results), the log a session has is a prefix of the log it has
    later. *)
Theorem results_append_only (py_repr : pyval → string) (fromisoformat : string → option Z)
    (evs : list Event) (g : Gateway) (session_id : string)
    (log : list (gmap string pyval)) :
  session_results (manager (world g)) !! session_id = Some log →
  ∃ more, session_results (manager (world (run py_repr fromisoformat evs g))) !! session_id
          = Some (log ++ more)%list.
Proof.
  intros Hlog. destruct (run_grows py_repr fromisoformat evs g) as (Hr & _).
  by apply Hr.
Qed.

Lemma results_append_only_witness :
  let g := run (λ _, "") (λ _, None)
             [Open 1 "s" ∅ 0; Result "s" (text_record "hello" true) 1] start in
  ∃ more,
    session_results
      (manager (world (run (λ _, "") (λ _, None)
                         [Close 1; Result "s" (text_record "late" true) 2; Open 2 "s" ∅ 3]
                         g))) !! "s"
    = Some ([<["chunk_id" := PStr ""]> (<["timestamp" := PTime 1]>
             (<["text" := PStr "hello"]> (<["is_final" := PBool true]>
             (<["confidence" := PNone]> (<["speaker_id" := PNone]>
             (<["success" := PBool true]> ∅))))))] ++ more)%list.
Proof.
  apply (results_append_only (λ _, "") (λ _, None)
           [Close 1; Result "s" (text_record "late" true) 2; Open 2 "s" ∅ 3]
           (run (λ _, "") (λ _, None)
              [Open 1 "s" ∅ 0; Result "s" (text_record "hello" true) 1] start) "s").
  vm_compute. reflexivity.
Defined.

(** X10: the metadata of a session is never removed, its creation time
    and its status never change, and its counter of processed chunks
    never goes down, whatever happens at the gateway. *)
Theorem counter_never_decreases (py_repr : pyval → string)
    (fromisoformat : string → option Z) (evs : list Event) (g : Gateway)
    (session_id : string) (meta : SessionMeta) :
  transcription_sessions (manager (world g)) !! session_id = Some meta →
  ∃ meta',
    transcription_sessions (manager (world (run py_repr fromisoformat evs g))) !! session_id
    = Some meta'
    ∧ created_at meta' = created_at meta
    ∧ status meta' = status meta
    ∧ chunks_processed meta ≤ chunks_processed meta'.
Proof.
  intros Hmeta. destruct (run_grows py_repr fromisoformat evs g) as (_ & Ht & _).
  by apply Ht.
Qed.

Lemma counter_never_decreases_witness :
  let g := run (λ _, "") (λ _, None) [Open 1 "s" ∅ 5] start in
  ∃ meta',
    transcription_sessions
      (manager (world (run (λ _, "") (λ _, None)
                         [Message 1 end_session_message 6 None; Open 2 "s" ∅ 7] g))) !! "s"
    = Some meta'
    ∧ created_at meta' = 5
    ∧ status meta' = "connected"
    ∧ 0 ≤ chunks_processed meta'.
Proof.
  apply (counter_never_decreases (λ _, "") (λ _, None)
           [Message 1 end_session_message 6 None; Open 2 "s" ∅ 7]
           (run (λ _, "") (λ _, None) [Open 1 "s" ∅ 5] start) "s"
           {| created_at := 5; status := "connected"; chunks_processed := 0 |}).
  vm_compute. reflexivity.
Defined.

(** X11: the status the registry keeps for a session that came into being
    through the WebSocket endpoint is "connected" in every state the
    gateway reaches, also after the session was ended and acknowledged as
    "completed"; and its counter is never negative. *)
Theorem status_stays_connected (py_repr : pyval → string)
    (fromisoformat : string → option Z) (evs : list Event) (session_id : string)
    (meta : SessionMeta) :
  transcription_sessions (manager (world (run py_repr fromisoformat evs start)))
    !! session_id = Some meta →
  status meta = "connected" ∧ 0 ≤ chunks_processed meta.
Proof.
  intros Hmeta. destruct (run_grows py_repr fromisoformat evs start) as (_ & _ & Hn).
  destruct (Hn session_id) as [Hnone|(meta' & Hsome & Hs & Hc)].
  - simpl. apply lookup_empty.
  - congruence.
  - by assert (meta' = meta) as <- by congruence.
Qed.

Lemma status_stays_connected_witness :
  status {| created_at := 5; status := "connected"; chunks_processed := 0 |} = "connected"
  ∧ 0 ≤ chunks_processed {| created_at := 5; status := "connected"; chunks_processed := 0 |}.
Proof.
  apply (status_stays_connected (λ _, "") (λ _, None)
           [Open 1 "s" ∅ 5; Message 1 end_session_message 6 None] "s").
  vm_compute. reflexivity.
Defined.

(** ** The receive loop *)

Lemma on_message_dispatch py_repr h message now fault w :
  on_message py_repr h (Json (PDict message)) now fault w
  = dispatch py_repr h message now fault w.
Proof.
  unfold on_message, dispatch.
  destruct (py_get message "type") as [| | | |type| | | |]; try reflexivity.
  generalize (handle_audio_chunk py_repr h message now fault w).
  generalize (handle_end_session h fault w).
  generalize (send (pong now) (h_session_id h) (Some (h_client_id h)) w).
  intros p e a.
  repeat (match goal with
          | |- context [match ?x with _ => _ end] =>
              lazymatch type of x with
              | string => destruct x; try reflexivity
              | ascii => destruct x
              | bool => destruct x; try reflexivity
              end
          end).
Qed.

Lemma handle_end_session_ok h fault w :
  (is_Some (get_service (h_session_id h) (manager w)) → fault = None) →
  ∃ h' w', handle_end_session h fault w = (Ok h', w').
Proof.
  intros Hfault.
  unfold handle_end_session, mbind, M_bind, read, get_service in *. cbn.
  destruct (services (manager w) !! h_session_id h); cbn; [|by eexists _, _].
  rewrite Hfault by done. cbn. by eexists _, _.
Qed.

Lemma handle_end_session_raises h e w :
  is_Some (get_service (h_session_id h) (manager w)) →
  handle_end_session h (Some e) w = (Raise e, w).
Proof.
  intros [svc Hsvc].
  unfold handle_end_session, mbind, M_bind, read, get_service in *. cbn.
  rewrite Hsvc. cbn. by destruct w.
Qed.

(** X12: the receive loop is left on an [end_session] message whose call
    of the service does not raise, and on nothing else: text that is not
    JSON, JSON that is not a dictionary, a chunk that cannot be decoded or
    forwarded, a ping or an unknown message type all keep the connection
    in its loop.  When the service raises on [end_session], the loop goes
    on as well: the flag stays unset, the registry is as before, and the
    client is sent the error. *)
Theorem loop_ends_only_on_end_session (py_repr : pyval → string) (h : Handler)
    (data : Received) (now : Z) (fault : option exn) (w : World) :
  ((on_message py_repr h data now fault w).1.1 = false
   ↔ ∃ message, data = Json (PDict message)
                ∧ py_get message "type" = PStr "end_session"
                ∧ (is_Some (get_service (h_session_id h) (manager w)) → fault = None))
  ∧ (∀ message e,
       data = Json (PDict message) →
       py_get message "type" = PStr "end_session" →
       is_Some (get_service (h_session_id h) (manager w)) →
       fault = Some e →
       on_message py_repr h data now fault w
       = (true, h, (send (error (exn_text e)) (h_session_id h) (Some (h_client_id h)) w).2)).
Proof.
  split.
  - destruct data as [|v].
    { split; [done|]. by intros (message & ? & _). }
    destruct v as [| | | | | | | |message];
      try (split; [done|]; by intros (message & ? & _)).
    rewrite on_message_dispatch. unfold dispatch.
    destruct (py_get message "type") as [| | | |type| | | |] eqn:Htype;
      try (split; [done|]; intros (message' & [= <-] & Heq & _); congruence).
    destruct (String.eqb_spec type "audio_chunk") as [->|Ha].
    { split.
      - by destruct (handle_audio_chunk py_repr h message now fault w) as [[?|?] ?].
      - intros (message' & [= <-] & Heq & _). congruence. }
    destruct (String.eqb_spec type "end_session") as [->|He].
    { split.
      - intros Hleft. exists message. split; [done|]. split; [done|].
        intros Hsvc. destruct fault as [e|]; [|done].
        by rewrite (handle_end_session_raises h e w Hsvc) in Hleft.
      - intros (message' & _ & _ & Hfault).
        by destruct (handle_end_session_ok h fault w Hfault) as (h' & w' & ->). }
    split; [by destruct (String.eqb type "ping")|].
    intros (message' & [= <-] & Heq & _). congruence.
  - intros message e -> Htype Hsvc ->.
    rewrite on_message_dispatch. unfold dispatch. rewrite Htype.
    cbn [String.eqb Ascii.eqb Bool.eqb].
    by rewrite (handle_end_session_raises h e w Hsvc).
Qed.

(** X13: a message whose type is none of [audio_chunk], [end_session] and
    [ping] (or is missing, or is not a string) is ignored: the loop goes
    on and neither the registry nor any socket changes. *)
Theorem unknown_message_is_ignored (py_repr : pyval → string) (h : Handler)
    (message : gmap string pyval) (now : Z) (fault : option exn) (w : World) :
  (∀ type, py_get message "type" = PStr type →
           type ≠ "audio_chunk" ∧ type ≠ "end_session" ∧ type ≠ "ping") →
  on_message py_repr h (Json (PDict message)) now fault w = (true, h, w).
Proof.
  intros Hother. rewrite on_message_dispatch. unfold dispatch.
  destruct (py_get message "type") as [| | | |type| | | |]; try reflexivity.
  destruct (Hother type eq_refl) as (Ha & He & Hp).
  apply String.eqb_neq in Ha, He, Hp. by rewrite Ha, He, Hp.
Qed.

Lemma unknown_message_is_ignored_witness :
  let h := {| h_websocket := 1; h_session_id := "s"; h_client_id := "c1";
              h_client_channel := Some 1; h_provider := "yandex";
              h_language := "ru-RU"; h_enable_diarization := true;
              h_sample_rate := None; session_already_ended := false |} in
  on_message (λ _, "") h (Json (PDict {["type" := PStr "hello"]})) 0 None
    {| manager := init; net := ∅ |}
  = (true, h, {| manager := init; net := ∅ |}).
Proof.
  apply (unknown_message_is_ignored (λ _, "")
           {| h_websocket := 1; h_session_id := "s"; h_client_id := "c1";
              h_client_channel := Some 1; h_provider := "yandex";
              h_language := "ru-RU"; h_enable_diarization := true;
              h_sample_rate := None; session_already_ended := false |}
           {["type" := PStr "hello"]} 0 None {| manager := init; net := ∅ |}).
  intros type Htype. vm_compute in Htype. injection Htype as <-.
  repeat split; discriminate.
Defined.

(** ** Counting chunks *)

Lemma bind_inv {A B} (c : M A) (k : A → M B) w r w' :
  (c ≫= k) w = (r, w') →
  (∃ e, c w = (Raise e, w') ∧ r = Raise e)
  ∨ (∃ a w1, c w = (Ok a, w1) ∧ k a w1 = (r, w')).
Proof.
  unfold mbind, M_bind. destruct (c w) as [[a|e] w1].
  - intros Hk. right. by exists a, w1.
  - intros [= <- <-]. left. by exists e.
Qed.

Lemma same_sessions_refl m : same_sessions m m.
Proof. done. Qed.

Lemma same_sessions_trans m1 m2 m3 :
  same_sessions m1 m2 → same_sessions m2 m3 → same_sessions m1 m3.
Proof. unfold same_sessions. congruence. Qed.

Lemma map_chunk_same session_id chunk channel :
  within same_sessions (map_chunk session_id chunk channel).
Proof.
  apply within_map_chunk; [apply same_sessions_refl|done].
Qed.

Lemma forward_chunk_same session_id chunk request fault :
  within same_sessions (forward_chunk session_id chunk request fault).
Proof.
  apply within_forward_chunk;
    [apply same_sessions_refl|apply same_sessions_trans|done].
Qed.

Lemma processed_same session_id w w' :
  same_sessions (manager w) (manager w') → processed session_id w' = processed session_id w.
Proof. unfold processed, same_sessions. by intros ->. Qed.

Lemma count_chunk_processed session_id w meta :
  transcription_sessions (manager w) !! session_id = Some meta →
  ∃ w', update_or_raise (count_chunk session_id) w = (Ok tt, w')
        ∧ processed session_id w' = processed session_id w + 1.
Proof.
  intros Hmeta. unfold update_or_raise, count_chunk, py_index, processed.
  rewrite Hmeta. simpl. eexists. split; [reflexivity|]. simpl.
  by rewrite lookup_insert_eq.
Qed.

(** X14: an [audio_chunk] message moves the counter of its session by one
    when it names audio (its audio field is not [None]) and the chunk was
    decoded, built and taken by the service; it leaves the counter as it
    is when no audio is named (also for the final empty chunk that is
    forwarded) and whenever handling the message raises. *)
Theorem audio_chunk_counter (py_repr : pyval → string) (h : Handler)
    (message : gmap string pyval) (now : Z) (fault : option exn) (w w' : World)
    (r : res unit) :
  handle_audio_chunk py_repr h message now fault w = (r, w') →
  processed (h_session_id h) w'
  = processed (h_session_id h) w
    + match r, raw_audio message with
      | Raise _, _ => 0
      | Ok _, PNone => 0
      | Ok _, _ => 1
      end.
Proof.
  unfold handle_audio_chunk, raw_audio. cbv zeta.
  set (raw := py_or (py_get message "audio_data") (py_get message "audio_bytes")).
  assert (Hnone : ∀ c : M unit, within same_sessions c → ∀ r0,
            c w = (r0, w') → processed (h_session_id h) w' = processed (h_session_id h) w).
  { intros c Hc r0 Hr. apply processed_same. specialize (Hc w). by rewrite Hr in Hc. }
  assert (Hfinal : within same_sessions
            (if truthy (py_get_default message "is_final" (PBool false))
             then map_chunk (h_session_id h)
                    ("ch" +:+ format_channel (h_client_channel h) +:+ "-final_"
                     +:+ h_session_id h) (h_client_channel h);;
                  chunk ← lift (make_chunk
                                  ("ch" +:+ format_channel (h_client_channel h)
                                   +:+ "-final_" +:+ h_session_id h)
                                  (PBytes []) now (PBool true));
                  forward_chunk (h_session_id h) chunk (request_of h) fault
             else mret tt)).
  { destruct (truthy _); [|by intros ?].
    apply within_bind; [apply same_sessions_trans|apply map_chunk_same|intros].
    apply within_bind; [apply same_sessions_trans|by intros ?|intros].
    apply forward_chunk_same. }
  assert (Haudio : ∀ (decode : M pyval), within same_sessions decode →
    (decode ≫= λ audio_data_bytes,
       session_meta (h_session_id h) ≫= λ meta,
         map_chunk (h_session_id h)
           ("ch" +:+ format_channel (h_client_channel h) +:+ "-"
            +:+ py_format py_repr
                  (py_or (py_get message "chunk_id")
                     (PStr (h_session_id h +:+ "_" +:+ pretty (chunks_processed meta + 1)))))
           (h_client_channel h) ≫= λ _,
         lift (make_chunk
                 ("ch" +:+ format_channel (h_client_channel h) +:+ "-"
                  +:+ py_format py_repr
                        (py_or (py_get message "chunk_id")
                           (PStr (h_session_id h +:+ "_"
                                  +:+ pretty (chunks_processed meta + 1)))))
                 audio_data_bytes now
                 (py_get_default message "is_final" (PBool false))) ≫= λ chunk,
         forward_chunk (h_session_id h) chunk (request_of h) fault ≫= λ _,
         update_or_raise (count_chunk (h_session_id h))) w = (r, w') →
    processed (h_session_id h) w'
    = processed (h_session_id h) w + match r with Ok _ => 1 | Raise _ => 0 end).
  { intros decode Hdec Hrun.
    apply bind_inv in Hrun as [(e & Hc & ->)|(a1 & w1 & Hc1 & Hrun)].
    { rewrite Z.add_0_r. apply processed_same. specialize (Hdec w). by rewrite Hc in Hdec. }
    assert (H1 : same_sessions (manager w) (manager w1)).
    { specialize (Hdec w). by rewrite Hc1 in Hdec. }
    apply bind_inv in Hrun as [(e & Hc & ->)|(meta & w2 & Hc2 & Hrun)].
    { rewrite Z.add_0_r. unfold session_meta in Hc. injection Hc as _ <-.
      by apply processed_same. }
    unfold session_meta, py_index in Hc2.
    destruct (transcription_sessions (manager w1) !! h_session_id h) as [meta1|] eqn:Hm1;
      [|done].
    injection Hc2 as <- <-.
    apply bind_inv in Hrun as [(e & Hc & ->)|(a3 & w3 & Hc3 & Hrun)].
    { rewrite Z.add_0_r. apply processed_same.
      apply (same_sessions_trans _ (manager w1)); [done|].
      pose proof (map_chunk_same (h_session_id h)
        ("ch" +:+ format_channel (h_client_channel h) +:+ "-"
         +:+ py_format py_repr
               (py_or (py_get message "chunk_id")
                  (PStr (h_session_id h +:+ "_" +:+ pretty (chunks_processed meta1 + 1)))))
        (h_client_channel h) w1) as Hs.
      by rewrite Hc in Hs. }
    assert (H3 : same_sessions (manager w1) (manager w3)).
    { pose proof (map_chunk_same (h_session_id h)
        ("ch" +:+ format_channel (h_client_channel h) +:+ "-"
         +:+ py_format py_repr
               (py_or (py_get message "chunk_id")
                  (PStr (h_session_id h +:+ "_" +:+ pretty (chunks_processed meta1 + 1)))))
        (h_client_channel h) w1) as Hs.
      by rewrite Hc3 in Hs. }
    apply bind_inv in Hrun as [(e & Hc & ->)|(chunk & w4 & Hc4 & Hrun)].
    { rewrite Z.add_0_r. unfold lift in Hc. injection Hc as _ <-.
      apply processed_same. by apply (same_sessions_trans _ (manager w1)). }
    unfold lift in Hc4. injection Hc4 as _ <-.
    apply bind_inv in Hrun as [(e & Hc & ->)|(a5 & w5 & Hc5 & Hrun)].
    { rewrite Z.add_0_r. apply processed_same.
      apply (same_sessions_trans _ (manager w1)); [done|].
      apply (same_sessions_trans _ (manager w3)); [done|].
      pose proof (forward_chunk_same (h_session_id h) chunk (request_of h) fault w3) as Hs.
      by rewrite Hc in Hs. }
    assert (H5 : same_sessions (manager w) (manager w5)).
    { apply (same_sessions_trans _ (manager w1)); [done|].
      apply (same_sessions_trans _ (manager w3)); [done|].
      pose proof (forward_chunk_same (h_session_id h) chunk (request_of h) fault w3) as Hs.
      by rewrite Hc5 in Hs. }
    destruct (count_chunk_processed (h_session_id h) w5 meta1) as (w6 & Hcount & Hp).
    { unfold same_sessions in H5, H1. by rewrite H5, <- H1. }
    rewrite Hcount in Hrun. injection Hrun as <- <-.
    rewrite Hp. f_equal. by apply processed_same. }
  destruct raw as [| | | |s| | | |] eqn:Hraw.
  - intros Hrun. rewrite (Hnone _ Hfinal r Hrun). destruct r; lia.
  - intros Hrun. rewrite (Haudio (mret (PBool b)) (within_ret same_sessions same_sessions_refl _) Hrun). by destruct r.
  - intros Hrun. rewrite (Haudio (mret (PInt z)) (within_ret same_sessions same_sessions_refl _) Hrun). by destruct r.
  - intros Hrun. rewrite (Haudio (mret (PFloat q)) (within_ret same_sessions same_sessions_refl _) Hrun). by destruct r.
  - intros Hrun.
    assert (Hdec : within same_sessions
              (b ← lift (fromhex (list_ascii_of_string s)); mret (PBytes b))).
    { apply within_bind; [apply same_sessions_trans|by intros ?|by intros ? ?]. }
    rewrite (Haudio _ Hdec Hrun). by destruct r.
  - intros Hrun. rewrite (Haudio (mret (PBytes b)) (within_ret same_sessions same_sessions_refl _) Hrun). by destruct r.
  - intros Hrun. rewrite (Haudio (mret (PTime t)) (within_ret same_sessions same_sessions_refl _) Hrun). by destruct r.
  - intros Hrun. rewrite (Haudio (mret (PList l)) (within_ret same_sessions same_sessions_refl _) Hrun). by destruct r.
  - intros Hrun. rewrite (Haudio (mret (PDict d)) (within_ret same_sessions same_sessions_refl _) Hrun). by destruct r.
Qed.

Lemma audio_chunk_counter_witness :
  processed "s" (handle_audio_chunk (λ _, "") first_handler two_byte_chunk 11 None
                   first_world).2
  = processed "s" first_world + 1.
Proof.
  apply (audio_chunk_counter (λ _, "") first_handler two_byte_chunk 11 None first_world
           (handle_audio_chunk (λ _, "") first_handler two_byte_chunk 11 None
              first_world).2 (Ok tt)).
  vm_compute. reflexivity.
Defined.

(** ** Sending *)

Lemma delivered_zero message s : delivered message 0 s = s.
Proof. destruct s. unfold delivered. simpl. by rewrite app_nil_r. Qed.

Lemma try_send_lookup message net ws target :
  try_send message net ws !! target
  = if decide (target = ws) then
      (λ s, if is_open s then delivered message 1 s else s) <$> net !! target
    else net !! target.
Proof.
  unfold try_send, send_text. destruct (decide (target = ws)) as [->|Hne].
  - destruct (net !! ws) as [s|] eqn:Hs; [|by rewrite Hs].
    simpl. fold (is_open s). destruct (is_open s) eqn:Hopen.
    + rewrite lookup_insert_eq. f_equal. unfold delivered.
      unfold is_open in Hopen.
      apply andb_true_iff in Hopen as [Ha Hc]. apply negb_true_iff in Hc.
      by rewrite Ha, Hc.
    + by rewrite Hs.
  - destruct (net !! ws) as [s|] eqn:Hs; [|done].
    destruct (sock_accepted s && negb (sock_closed s)); [|done].
    by rewrite lookup_insert_ne.
Qed.

Lemma send_all_lookup message (l : list nat) :
  ∀ net target,
    foldl (try_send message) net l !! target
    = (λ s, if is_open s then delivered message (occurrences target l) s else s)
        <$> net !! target.
Proof.
  induction l as [|ws l IH]; intros net target.
  - simpl. destruct (net !! target) as [s|]; [|done]. simpl.
    destruct (is_open s); [by rewrite delivered_zero|done].
  - simpl. rewrite IH, try_send_lookup. unfold occurrences. simpl.
    destruct (decide (target = ws)) as [->|Hne].
    + rewrite bool_decide_eq_true_2 by done.
      destruct (net !! ws) as [s|]; [|done]. simpl.
      destruct (is_open s) eqn:Hopen; [|by rewrite Hopen].
      assert (is_open (delivered message 1 s) = true) as -> by done.
      f_equal. unfold delivered. simpl. by rewrite <- app_assoc.
    + rewrite bool_decide_eq_false_2 by (intros ->; done). done.
Qed.

(** X15: a message sent to one client reaches the socket registered for
    that client id, once, if that socket is open, and changes no other
    socket; for a client id the session does not have, and for a socket
    that is not open, nothing changes and nothing is raised. *)
Theorem unicast_reaches_only_addressee (message : OutMsg) (session_id client_id : string)
    (m : ConnectionManager) (net : gmap nat Socket) (target : nat) :
  send_personal_message message session_id (Some client_id) m net !! target
  = if decide (default ∅ (active_connections m !! session_id) !! client_id = Some target)
    then (λ s, if is_open s then delivered message 1 s else s) <$> net !! target
    else net !! target.
Proof.
  unfold send_personal_message.
  destruct (default ∅ (active_connections m !! session_id) !! client_id) as [ws|].
  - rewrite try_send_lookup. destruct (decide (target = ws)) as [->|Hne].
    + by rewrite decide_True.
    + rewrite decide_False; [done|]. intros [= ->]. done.
  - by rewrite decide_False.
Qed.

(** X16: a broadcast reaches every open socket of the session once per
    client id registered with that socket, and leaves every other socket
    as it is; a socket of the session that is not open gets nothing and
    does not keep the message from the others. *)
Theorem broadcast_reaches_open_sockets (message : OutMsg) (session_id : string)
    (m : ConnectionManager) (net : gmap nat Socket) (target : nat) :
  broadcast message session_id m net !! target
  = (λ s, if is_open s
          then delivered message (occurrences target (session_sockets session_id m)) s
          else s) <$> net !! target.
Proof. unfold broadcast. apply send_all_lookup. Qed.

(** ** The result callback *)

(** X17: a result with text (a string, or bytes) is stored with its text
    stripped and, having no time stamp, with the time of the call; when
    the provider gave no speaker, the speaker is taken from the channel
    named in the chunk id ([ch<N>-...]) if it names one, whatever the
    chunk-channel map says, from the chunk-channel map if the id names
    none, and is left as the provider gave it if neither knows the
    chunk. *)
Theorem callback_speaker_priority (fromisoformat : string → option Z)
    (session_id : string) (result : gmap string pyval) (now : Z) (w : World)
    (given text : pyval) (chunk : string) :
  result !! "text" = Some given →
  stripped_text given = Some text →
  truthy text = true →
  result !! "timestamp" = None →
  truthy (py_get result "speaker_id") = false →
  result !! "chunk_id" = Some (PStr chunk) →
  chunk ≠ "" →
  let speaker :=
    match channel_of_chunk_id chunk with
    | Some c => PStr ("channel_" +:+ pretty c)
    | None =>
        match resolve_channel_for_chunk session_id chunk (manager w) with
        | Some c => PStr ("channel_" +:+ pretty c)
        | None => py_get result "speaker_id"
        end
    end in
  ∃ record,
    session_results (manager (result_callback fromisoformat session_id result now w))
      !! session_id
    = Some (default [] (session_results (manager w) !! session_id) ++ [record])%list
    ∧ record !! "speaker_id" = Some speaker
    ∧ record !! "text" = Some text
    ∧ record !! "timestamp" = Some (PTime now).
Proof.
  intros Htext Hstrip Htruthy Htime Hspeaker Hchunk Hne speaker.
  unfold result_callback, py_get_default, py_get.
  unfold py_get in Hspeaker. rewrite Htext, Htime, Hchunk. cbn [from_option id].
  rewrite Hstrip, Htruthy. cbn [negb].
  cbn [fmap option_fmap option_map]. rewrite Hspeaker.
  assert (Hor : py_or (PStr chunk) (PStr "") = PStr chunk).
  { unfold py_or. cbn [truthy]. apply String.eqb_neq in Hne. by rewrite Hne. }
  rewrite Hor. cbn [manager]. unfold add_transcription_result, with_session_results.
  cbn [session_results]. rewrite lookup_insert_eq. eexists. split; [reflexivity|].
  split; [|split].
  - rewrite lookup_insert_ne by discriminate. rewrite lookup_insert_ne by discriminate.
    rewrite lookup_insert_ne by discriminate. rewrite lookup_insert_ne by discriminate.
    rewrite lookup_insert_ne by discriminate. rewrite lookup_insert_eq.
    unfold speaker, py_get. f_equal.
    destruct (channel_of_chunk_id chunk); [done|].
    by destruct (resolve_channel_for_chunk session_id chunk (manager w)).
  - rewrite lookup_insert_ne by discriminate. rewrite lookup_insert_ne by discriminate.
    by rewrite lookup_insert_eq.
  - rewrite lookup_insert_ne by discriminate. by rewrite lookup_insert_eq.
Qed.

Lemma callback_speaker_priority_witness :
  ∃ record,
    session_results
      (manager (result_callback (λ _, None) "s"
                  (<["text" := PStr padded_hi]> hi_result) 7 mapped_world))
      !! "s"
    = Some (default [] (session_results (manager mapped_world) !! "s") ++ [record])%list
    ∧ record !! "speaker_id" = Some (PStr "channel_3")
    ∧ record !! "text" = Some (PStr "hi")
    ∧ record !! "timestamp" = Some (PTime 7).
Proof.
  refine (callback_speaker_priority (λ _, None) "s"
            (<["text" := PStr padded_hi]> hi_result) 7 mapped_world
            (PStr padded_hi) (PStr "hi") "ch3-x" eq_refl _ eq_refl eq_refl eq_refl eq_refl _).
  - vm_compute. reflexivity.
  - discriminate.
Defined.

(** X18: a result is dropped by the callback, nothing being stored and
    nothing sent, when its text is missing or blank (a string of white
    space of any script, bytes of ASCII white space, or empty), and when
    its text is a value without [strip], on which the call raises. *)
Theorem callback_skips_blank_text (fromisoformat : string → option Z)
    (session_id : string) (result : gmap string pyval) (now : Z) (w : World) :
  (∀ text, stripped_text (py_get_default result "text" (PStr "")) = Some text →
           truthy text = false) →
  result_callback fromisoformat session_id result now w = w.
Proof.
  intros Hblank. unfold result_callback.
  destruct (stripped_text (py_get_default result "text" (PStr ""))) as [text|]; [|done].
  by rewrite (Hblank text eq_refl).
Qed.

Lemma callback_skips_blank_text_witness :
  result_callback (λ _, None) "s"
    (<["text" := PStr (string_of_list_ascii (utf8 160 ++ utf8 32 ++ utf8 12288))]> ∅)
    7 mapped_world
  = mapped_world.
Proof.
  apply (callback_skips_blank_text (λ _, None) "s"
           (<["text" := PStr (string_of_list_ascii (utf8 160 ++ utf8 32 ++ utf8 12288))]> ∅)
           7 mapped_world).
  intros text Htext. vm_compute in Htext. injection Htext as <-. reflexivity.
Defined.

(** * Further properties of the adapter *)

(** X19: every record made from a response comes from an alternative of
    that response with a text that is not blank, carries that text
    unchanged, and is marked final exactly when it comes from the final or
    the final-refinement part; a refinement carries no words. *)
Theorem parsed_record_origin (response : StreamingResponse) (r : gmap string pyval) :
  r ∈ _process_single_response response →
  ∃ alt,
    has_text alt = true
    ∧ r !! "text" = Some (PStr (alt_text alt))
    ∧ r !! "provider" = Some (PStr "yandex_v3")
    ∧ ((alt ∈ partial response ∧ r !! "type" = Some (PStr "partial")
        ∧ r !! "is_final" = Some (PBool false))
       ∨ (alt ∈ final response ∧ r !! "type" = Some (PStr "final")
          ∧ r !! "is_final" = Some (PBool true))
       ∨ (alt ∈ final_refinement response
          ∧ r !! "type" = Some (PStr "final_refinement")
          ∧ r !! "is_final" = Some (PBool true)
          ∧ r !! "words" = Some (PList []))).
Proof.
  unfold _process_single_response. intros Hin.
  apply elem_of_app in Hin as [Hin|Hin]; [|apply elem_of_app in Hin as [Hin|Hin]];
    apply list_elem_of_In, in_map_iff in Hin as (alt & <- & Halt);
    apply filter_In in Halt as [Halt Htext]; apply list_elem_of_In in Halt;
    exists alt; (split; [done|]); (split; [done|]); (split; [done|]).
  - left. done.
  - right. left. done.
  - right. right. done.
Qed.

Lemma parsed_record_origin_witness :
  ∃ alt,
    has_text alt = true
    ∧ result_record "final" {| alt_text := "ok"; alt_confidence := PNone; alt_words := [] |}
        [] true !! "text" = Some (PStr (alt_text alt)).
Proof.
  destruct (parsed_record_origin
              {| partial := []; final := [{| alt_text := "ok"; alt_confidence := PNone;
                                              alt_words := [] |}];
                 final_refinement := [] |}
              (result_record "final"
                 {| alt_text := "ok"; alt_confidence := PNone; alt_words := [] |} [] true))
    as (alt & Htext & Heq & _).
  - vm_compute. left.
  - by exists alt.
Defined.

(** X20: the channel is closed exactly once when it was opened and not at
    all when it was not; and requests are handed to the RPC only on an
    opened channel. *)
Theorem channel_closed_iff_opened (rt : Runtime) (settings : Settings) (up : Upstream)
    (audio_stream : list (list ascii)) (language : string) (diarization : bool)
    (rate : Z) :
  let run := recognize_stream rt settings up audio_stream language diarization rate in
  channel_closed run = (if channel_opened run then 1 else 0)%nat
  ∧ (channel_opened run = false → request_events run = []).
Proof.
  unfold recognize_stream.
  destruct (_ || _); [done|].
  destruct (_build_auth_metadata settings); [|done].
  by destruct (ready_failure up).
Qed.

(** X21: a run yields the records parsed from the responses, none of
    which is an error record, followed by at most one error record; it
    yields no error record exactly when streaming is available, the
    credentials are set, the channel got ready and the response stream
    ended without failure. *)
Theorem at_most_one_error_record (rt : Runtime) (settings : Settings) (up : Upstream)
    (audio_stream : list (list ascii)) (language : string) (diarization : bool)
    (rate : Z) :
  ∃ parsed tail,
    records (recognize_stream rt settings up audio_stream language diarization rate)
    = (parsed ++ tail)%list
    ∧ (∀ r, r ∈ parsed → ¬ is_error_record r)
    ∧ (tail = [] ∨ ∃ e, tail = [e] ∧ is_error_record e)
    ∧ (tail = [] ↔ completes rt settings up).
Proof.
  unfold recognize_stream, completes, streaming_available.
  destruct (GRPC_AVAILABLE rt) eqn:Hg; simpl.
  2:{ eexists [], _. split; [reflexivity|]. split; [by intros r Hr; apply elem_of_nil in Hr|].
      split; [right; eexists; split; [done|apply lookup_insert_eq]|].
      split; [done|]. by intros ((? & _) & _). }
  destruct (RecognizerStub_imported rt) eqn:Hr; simpl.
  2:{ eexists [], _. split; [reflexivity|]. split; [by intros r Hr'; apply elem_of_nil in Hr'|].
      split; [right; eexists; split; [done|apply lookup_insert_eq]|].
      split; [done|]. by intros ((_ & ? & _) & _). }
  destruct (StreamingRequest_imported rt) eqn:Hs; simpl.
  2:{ eexists [], _. split; [reflexivity|]. split; [by intros r Hr'; apply elem_of_nil in Hr'|].
      split; [right; eexists; split; [done|apply lookup_insert_eq]|].
      split; [done|]. by intros ((_ & _ & ?) & _). }
  destruct (_build_auth_metadata settings) as [metadata|e] eqn:Hauth.
  2:{ eexists [], _. split; [reflexivity|]. split; [by intros r Hr'; apply elem_of_nil in Hr'|].
      split; [right; eexists; split; [done|apply lookup_insert_eq]|].
      split; [done|]. by intros (_ & (? & ?) & _). }
  destruct (ready_failure up) as [f|] eqn:Hready.
  { eexists [], _. split; [reflexivity|]. split; [by intros r Hr'; apply elem_of_nil in Hr'|].
    split; [right; eexists; split; [done|apply failure_record_is_error]|].
    split; [done|]. by intros (_ & _ & ? & _). }
  simpl. destruct (stream_failure up) as [f|] eqn:Hfail.
  - eexists (List.concat (List.map _process_single_response (responses up))), _.
    split; [reflexivity|]. split.
    + intros r Hin. apply list_elem_of_In, in_concat in Hin as (l & Hl & Hrl).
      apply in_map_iff in Hl as (response & <- & _).
      apply (parsed_record_not_error response). by apply list_elem_of_In.
    + split; [right; eexists; split; [done|apply failure_record_is_error]|].
      split; [done|]. by intros (_ & _ & _ & ?).
  - exists (List.concat (List.map _process_single_response (responses up))), [].
    split; [by rewrite app_nil_r|]. split.
    + intros r Hin. apply list_elem_of_In, in_concat in Hin as (l & Hl & Hrl).
      apply in_map_iff in Hl as (response & <- & _).
      apply (parsed_record_not_error response). by apply list_elem_of_In.
    + split; [by left|]. split; [|done]. intros _. repeat split; eauto.
Qed.

(** X22: when the RPC is called, the configuration frame asks for the
    requested sample rate if it is one of 8000, 16000 and 48000, and for
    16000 otherwise (with a warning logged), and for the one language the
    request names, "ru" and "en" being completed to "ru-RU" and
    "en-US". *)
Theorem configuration_frame_parameters (rt : Runtime) (settings : Settings)
    (up : Upstream) (audio_stream : list (list ascii)) (language : string)
    (diarization : bool) (rate : Z) (metadata : list (string * string)) :
  streaming_available rt →
  _build_auth_metadata settings = Ok metadata →
  ready_failure up = None →
  let run := recognize_stream rt settings up audio_stream language diarization rate in
  ∃ opts,
    request_events run = request_generator opts audio_stream
    ∧ sample_rate_hertz opts
      = (if bool_decide (rate ∈ [8000; 16000; 48000]) then rate else 16000)
    ∧ language_code opts = [full_language language]
    ∧ (rate ∈ [8000; 16000; 48000] ↔
       "Unsupported sample_rate; falling back to 16000" ∉ warnings run).
Proof.
  intros (Hg & Hr & Hs) Hauth Hready run. unfold run, recognize_stream.
  rewrite Hg, Hr, Hs, Hauth, Hready. simpl. eexists. split; [reflexivity|]. simpl.
  split; [done|]. split.
  { unfold full_language. by destruct (String.eqb language "ru"). }
  destruct (negb (is_set (yandex_folder_id settings))
            && negb (is_set (yandex_api_key settings))); simpl;
    case_bool_decide as Hrate; simpl.
  - split; [intros _|done]. intros Hin.
    apply elem_of_cons in Hin as [Heq|Hin]; [discriminate|by apply elem_of_nil in Hin].
  - split; [done|]. intros Hnot. exfalso. apply Hnot. set_solver.
  - split; [intros _|done]. intros Hin. by apply elem_of_nil in Hin.
  - split; [done|]. intros Hnot. exfalso. apply Hnot. set_solver.
Qed.

Lemma configuration_frame_parameters_witness :
  ∃ opts,
    request_events
      (recognize_stream
         {| GRPC_AVAILABLE := true; RecognizerStub_imported := true;
            StreamingRequest_imported := true |}
         {| yandex_api_key := Some "k"; yandex_iam_token := None;
            yandex_folder_id := None |}
         {| ready_failure := None; responses := []; stream_failure := None |}
         [] "ru" true 44100)
    = request_generator opts []
    ∧ sample_rate_hertz opts = 16000
    ∧ language_code opts = ["ru-RU"].
Proof.
  destruct (configuration_frame_parameters
              {| GRPC_AVAILABLE := true; RecognizerStub_imported := true;
                 StreamingRequest_imported := true |}
              {| yandex_api_key := Some "k"; yandex_iam_token := None;
                 yandex_folder_id := None |}
              {| ready_failure := None; responses := []; stream_failure := None |}
              [] "ru" true 44100 [("authorization", "Api-Key k")]
              (conj eq_refl (conj eq_refl eq_refl)) eq_refl eq_refl)
    as (opts & Hreq & Hrate & Hlang & _).
  exists opts. split; [exact Hreq|]. split; [exact Hrate|exact Hlang].
Defined.

(** * Query parameters *)

Lemma space_is_small (c : N) : is_space c = true → (c < 12289)%N.
Proof.
  unfold is_space, between.
  rewrite !orb_true_iff, !andb_true_iff, !N.leb_le, !N.eqb_eq. lia.
Qed.

Lemma small_spaces_are_no_digits :
  forallb (λ n, negb (is_space (N.of_nat n) && is_digit (N.of_nat n))) (seq 0 (N.to_nat 12289)) = true.
Proof. vm_compute. reflexivity. Qed.

Lemma digit_not_space (c : N) : is_digit c = true → is_space c = false.
Proof.
  intros Hd. destruct (is_space c) eqn:Hs; [|done].
  pose proof (space_is_small c Hs) as Hlt.
  pose proof (proj1 (forallb_forall _ _) small_spaces_are_no_digits (N.to_nat c)) as Hall.
  cbv beta in Hall. rewrite N2Nat.id, Hs, Hd in Hall.
  assert (false = true); [|done]. apply Hall. apply in_seq. lia.
Qed.

Lemma decimal_is_digit (c : N) : is_decimal c = true → is_digit c = true.
Proof. unfold is_digit. by intros ->. Qed.

Lemma digit_not_int_space (c : N) : is_digit c = true → is_int_space c = false.
Proof. intros Hd. unfold is_int_space. by rewrite (digit_not_space c Hd). Qed.

Lemma lstrip_keeps (space : N → bool) (l : list N) :
  (∀ c, head l = Some c → space c = false) → lstrip space l = l.
Proof. destruct l as [|c l]; [done|]. simpl. intros Hc. by rewrite (Hc c eq_refl). Qed.

Lemma strip_keeps (space : N → bool) (l : list N) :
  (∀ c, c ∈ l → space c = false) → strip space l = l.
Proof.
  intros Hall. unfold strip. rewrite (lstrip_keeps space l).
  - rewrite lstrip_keeps; [apply rev_involutive|].
    intros c Hc. apply Hall. apply list_elem_of_In, in_rev, list_elem_of_In.
    by apply head_Some_elem_of.
  - intros c Hc. apply Hall. by apply head_Some_elem_of.
Qed.

Lemma digits_strip (l : list N) :
  forallb is_digit l = true → strip is_int_space l = l.
Proof.
  intros Hall. apply strip_keeps. intros c Hc. apply digit_not_int_space.
  apply (proj1 (forallb_forall _ _) Hall). by apply list_elem_of_In.
Qed.

Lemma decimal_value_nonneg (c : N) : 0 ≤ default 0 (decimal_value c).
Proof. unfold decimal_value. destruct (List.find _ _); simpl; lia. Qed.

Lemma digits_value_decimal (l : list N) :
  ∀ acc sep, forallb is_decimal l = true → (l ≠ [] ∨ sep = true) →
  digits_value l acc sep
  = Some (foldl (λ acc c, acc * 10 + default 0 (decimal_value c)) acc l).
Proof.
  induction l as [|c l IH]; intros acc sep Hall Hne; simpl.
  - destruct Hne as [?| ->]; done.
  - simpl in Hall. apply andb_true_iff in Hall as [Hc Hall].
    unfold is_decimal in Hc. destruct (decimal_value c) as [d|]; [|done]. simpl.
    apply IH; auto.
Qed.

Lemma digits_value_other (l : list N) :
  ∀ acc sep, forallb is_digit l = true → forallb is_decimal l = false →
  digits_value l acc sep = None.
Proof.
  induction l as [|c l IH]; intros acc sep Hall Hsome; simpl; [done|].
  simpl in Hall, Hsome. apply andb_true_iff in Hall as [Hc Hall].
  unfold is_decimal in Hsome at 1.
  destruct (decimal_value c) as [d|] eqn:Hd.
  - apply IH; done.
  - destruct (N.eqb_spec c 95) as [->|Hne]; [|done]. vm_compute in Hc. done.
Qed.

Lemma decimal_number_nonneg (l : list N) : 0 ≤ decimal_number l.
Proof.
  unfold decimal_number.
  assert (H : ∀ acc, 0 ≤ acc →
           0 ≤ foldl (λ acc c, acc * 10 + default 0 (decimal_value c)) acc l).
  { induction l as [|c l IH]; intros acc Hacc; simpl; [done|].
    apply IH. pose proof (decimal_value_nonneg c). lia. }
  by apply H.
Qed.

Lemma filter_all_decimal (l : list N) :
  forallb is_decimal l = true → List.filter is_decimal l = l.
Proof.
  induction l as [|c l IH]; simpl; [done|]. intros [Hc Hall]%andb_true_iff.
  rewrite Hc. by rewrite IH.
Qed.

Lemma py_int_digits (s : string) :
  isdigit s = true →
  let l := code_points (list_ascii_of_string s) in
  py_int s = if forallb is_decimal l && (length l <=? max_str_digits)%nat
             then Some (decimal_number l) else None.
Proof.
  intros Hd l. unfold isdigit in Hd. unfold py_int. fold l in Hd. fold l.
  assert (Hall : forallb is_digit l = true) by (by destruct l).
  assert (Hne : l ≠ []) by (by destruct l).
  rewrite (digits_strip l Hall). cbv zeta.
  destruct (forallb is_decimal l) eqn:Hdec; simpl.
  - rewrite (filter_all_decimal l Hdec).
    destruct (Nat.leb_spec (length l) max_str_digits) as [Hle|Hgt].
    + destruct (Nat.ltb_spec max_str_digits (length l)) as [?|_]; [lia|].
      destruct l as [|c rest] eqn:El; [done|]. rewrite <- El in *.
      assert (Hc : is_digit c = true).
      { rewrite El in Hall. simpl in Hall. by apply andb_true_iff in Hall as [? _]. }
      destruct (N.eqb_spec c 45) as [->|_]; [by vm_compute in Hc|].
      destruct (N.eqb_spec c 43) as [->|_]; [by vm_compute in Hc|].
      apply digits_value_decimal; auto.
    + destruct (Nat.ltb_spec max_str_digits (length l)) as [_|?]; [done|lia].
  - destruct (_ <? _)%nat; [done|].
    destruct l as [|c rest] eqn:El; [done|]. rewrite <- El in *.
    assert (Hc : is_digit c = true).
    { rewrite El in Hall. simpl in Hall. by apply andb_true_iff in Hall as [? _]. }
    destruct (N.eqb_spec c 45) as [->|_]; [by vm_compute in Hc|].
    destruct (N.eqb_spec c 43) as [->|_]; [by vm_compute in Hc|].
    by apply digits_value_other.
Qed.

(** X23: what the endpoint reads from the query parameters [sample_rate]
    and [channel].  A parameter that is absent, empty or not made of digit
    characters only (a sign, a space, a letter) reads as [None].  A
    parameter made of decimal digits, of whatever script, reads as the
    number they write, which is never negative, as long as it has no more
    digits than [int] converts.  A parameter made of digit characters of
    which one is not decimal (a superscript two, say), or longer than
    that, makes [int] raise, which ends the endpoint before the socket is
    accepted. *)
Theorem int_param_reads_decimal_digits (p : option string) :
  match p with
  | None => int_param p = Ok None
  | Some s =>
      let l := code_points (list_ascii_of_string s) in
      if negb (isdigit s) then int_param p = Ok None
      else if forallb is_decimal l && (length l <=? max_str_digits)%nat then
        int_param p = Ok (Some (decimal_number l)) ∧ 0 ≤ decimal_number l
      else ∃ msg, int_param p = Raise (ValueError msg)
  end.
Proof.
  destruct p as [s|]; [|done]. cbv zeta. unfold int_param.
  destruct (isdigit s) eqn:Hd; simpl.
  - assert (String.eqb s "" = false) as ->.
    { apply String.eqb_neq. intros ->. by vm_compute in Hd. }
    simpl. rewrite (py_int_digits s Hd).
    destruct (_ && _).
    + split; [done|]. apply decimal_number_nonneg.
    + by eexists.
  - by rewrite andb_false_r.
Qed.

Example int_param_arabic_indic :
  int_param (Some (string_of_list_ascii (utf8 1635 ++ utf8 50))) = Ok (Some 32).
Proof. vm_compute. reflexivity. Qed.

Example int_param_superscript :
  int_param (Some (string_of_list_ascii (utf8 178)))
  = Raise (ValueError "invalid literal for int() with base 10").
Proof. vm_compute. reflexivity. Qed.

Example int_param_signed : int_param (Some "-1") = Ok None.
Proof. vm_compute. reflexivity. Qed.

(** * Forced termination *)

(** X24: disconnecting a client, or a whole session, a second time changes
    nothing: the registry after two calls is the registry after one.  The
    endpoint's [finally] block and the forced termination can both
    disconnect the same client. *)
Theorem disconnect_idempotent (session_id : string) (client_id : option string)
    (m : ConnectionManager) :
  disconnect session_id client_id (disconnect session_id client_id m)
  = disconnect session_id client_id m.
Proof.
  unfold disconnect. destruct client_id as [cid|].
  - destruct (active_connections m !! session_id) as [conns|] eqn:Hc;
      destruct (client_channels m !! session_id) as [chans|] eqn:Hch; simpl;
      rewrite ?Hch, ?Hc; simpl; rewrite ?lookup_insert_eq, ?Hc; simpl.
    all: try case_decide; simpl.
    all: rewrite ?lookup_delete_eq, ?lookup_insert_eq, ?Hc, ?Hch; simpl.
    all: rewrite ?lookup_delete_eq, ?lookup_insert_eq, ?Hc, ?Hch; simpl.
    all: rewrite ?delete_delete_eq; try case_decide; try done.
    all: unfold with_client_channels, with_active_connections; simpl.
    all: rewrite ?delete_delete_eq, ?insert_insert_eq, ?delete_insert_eq; try done.
    all: rewrite ?lookup_delete_eq, ?lookup_insert_eq; try done.
    all: try case_decide; try done.
  - unfold with_client_channels, with_active_connections; simpl.
    by rewrite !delete_delete_eq.
Qed.

Lemma disconnect_container session_id cid m conns' :
  active_connections (disconnect session_id (Some cid) m) !! session_id = Some conns' →
  ∃ conns, active_connections m !! session_id = Some conns ∧ conns' = delete cid conns.
Proof.
  unfold disconnect.
  destruct (active_connections m !! session_id) as [conns|] eqn:Hc;
    destruct (client_channels m !! session_id) as [chans|] eqn:Hch; simpl;
    rewrite ?Hch; simpl; rewrite ?lookup_insert_eq, ?Hc; simpl;
    try case_decide; simpl; rewrite ?lookup_delete_eq, ?lookup_insert_eq, ?Hc;
    try done; intros [= <-]; by exists conns.
Qed.

Lemma disconnect_other session_id client_id m other :
  other ≠ session_id →
  active_connections (disconnect session_id client_id m) !! other
  = active_connections m !! other
  ∧ client_channels (disconnect session_id client_id m) !! other
    = client_channels m !! other.
Proof.
  intros Hne. unfold disconnect. destruct client_id as [cid|].
  - destruct (active_connections m !! session_id) as [conns|] eqn:Hc;
      destruct (client_channels m !! session_id) as [chans|] eqn:Hch; simpl;
      rewrite ?Hch; simpl; rewrite ?lookup_insert_eq, ?Hc; simpl;
      try case_decide; simpl;
      rewrite ?lookup_delete_ne by done; rewrite ?lookup_insert_ne by done; done.
  - simpl. by rewrite !lookup_delete_ne.
Qed.

Lemma close_clients_manager session_id l w :
  manager (foldl (close_client session_id) w l)
  = foldl (λ m (item : string * nat), disconnect session_id (Some item.1) m) (manager w) l.
Proof. revert w. induction l as [|it l IH]; intros w; [done|]. simpl. by rewrite IH. Qed.

Lemma close_clients_net session_id l w :
  net (foldl (close_client session_id) w l)
  = foldl (λ n (item : string * nat), close item.2 n) (net w) l.
Proof. revert w. induction l as [|it l IH]; intros w; [done|]. simpl. by rewrite IH. Qed.

Lemma disconnect_each_no_clients session_id (l : list (string * nat)) m :
  (∀ conns cid, active_connections m !! session_id = Some conns →
                is_Some (conns !! cid) → cid ∈ l.*1) →
  has_active_clients session_id
    (foldl (λ m (item : string * nat), disconnect session_id (Some item.1) m) m l) = false.
Proof.
  revert m. induction l as [|[c ws] l IH]; intros m Hkeys; simpl.
  - unfold has_active_clients.
    destruct (active_connections m !! session_id) as [conns|] eqn:Hc; [|done].
    assert (conns = ∅) as ->.
    { apply map_empty. intros cid. apply eq_None_not_Some. intros Hsome.
      specialize (Hkeys conns cid eq_refl Hsome). simpl in Hkeys.
      by apply elem_of_nil in Hkeys. }
    by rewrite map_size_empty.
  - apply IH. intros conns' cid Hc' Hsome.
    apply disconnect_container in Hc' as (conns & Hc & ->).
    destruct (decide (cid = c)) as [->|Hne].
    + rewrite lookup_delete_eq in Hsome. by destruct Hsome.
    + rewrite lookup_delete_ne in Hsome by done.
      specialize (Hkeys conns cid Hc Hsome). simpl in Hkeys.
      apply elem_of_cons in Hkeys as [?|?]; done.
Qed.

Lemma disconnect_each_other session_id (l : list (string * nat)) m other :
  other ≠ session_id →
  let m' := foldl (λ m (item : string * nat), disconnect session_id (Some item.1) m) m l in
  active_connections m' !! other = active_connections m !! other
  ∧ client_channels m' !! other = client_channels m !! other.
Proof.
  intros Hne. revert m. induction l as [|[c ws] l IH]; intros m; [done|].
  cbv zeta in *. cbn [foldl fst].
  destruct (IH (disconnect session_id (Some c) m)) as [-> ->].
  by apply disconnect_other.
Qed.

Lemma disconnect_each_keeps session_id (l : list (string * nat)) m :
  let m' := foldl (λ m (item : string * nat), disconnect session_id (Some item.1) m) m l in
  session_results m' = session_results m
  ∧ transcription_sessions m' = transcription_sessions m
  ∧ services m' = services m
  ∧ chunk_channel_map m' = chunk_channel_map m.
Proof.
  revert m. induction l as [|[c ws] l IH]; intros m; [done|].
  cbv zeta in *. cbn [foldl fst].
  destruct (IH (disconnect session_id (Some c) m)) as (-> & -> & -> & ->).
  apply disconnect_keeps.
Qed.

Lemma close_each_closed (l : list (string * nat)) n ws :
  (ws ∈ l.*2 ∨ ∃ s, n !! ws = Some s ∧ sock_closed s = true) →
  ∃ s, foldl (λ n (item : string * nat), close item.2 n) n l !! ws = Some s
       ∧ sock_closed s = true.
Proof.
  revert n. induction l as [|[c ws'] l IH]; intros n Hin; simpl.
  - destruct Hin as [Hin|Hin]; [by apply elem_of_nil in Hin|done].
  - apply IH. destruct (decide (ws = ws')) as [->|Hne].
    + right. unfold close. rewrite lookup_insert_eq. by eexists.
    + destruct Hin as [Hin|Hin].
      * left. simpl in Hin. apply elem_of_cons in Hin as [?|?]; done.
      * right. unfold close. by rewrite lookup_insert_ne.
Qed.

Lemma close_each_elsewhere (l : list (string * nat)) n ws :
  ws ∉ l.*2 →
  foldl (λ n (item : string * nat), close item.2 n) n l !! ws = n !! ws.
Proof.
  revert n. induction l as [|[c ws'] l IH]; intros n Hin; [done|]. simpl in *.
  apply not_elem_of_cons in Hin as [Hne Hin].
  rewrite IH by done. unfold close. by rewrite lookup_insert_ne.
Qed.

(** X25: after [terminate_session] the session has no active client and
    every socket that was registered for it is closed, the other sockets
    being untouched; the other sessions keep their clients and channels;
    the results, the metadata and the chunk-channel map of the registry
    are as before; and a session that had a connection container is
    reported as found. *)
Theorem terminate_session_drops_clients (session_id : string) (w : World) :
  let r := terminate_session session_id w in
  has_active_clients session_id (manager r.2) = false
  ∧ (∀ other, other ≠ session_id →
       active_connections (manager r.2) !! other = active_connections (manager w) !! other
       ∧ client_channels (manager r.2) !! other = client_channels (manager w) !! other)
  ∧ session_results (manager r.2) = session_results (manager w)
  ∧ transcription_sessions (manager r.2) = transcription_sessions (manager w)
  ∧ chunk_channel_map (manager r.2) = chunk_channel_map (manager w)
  ∧ (∀ conns cid ws, active_connections (manager w) !! session_id = Some conns →
       conns !! cid = Some ws →
       ∃ s, net r.2 !! ws = Some s ∧ sock_closed s = true)
  ∧ (∀ ws, (∀ conns cid, active_connections (manager w) !! session_id = Some conns →
                         conns !! cid ≠ Some ws) →
           net r.2 !! ws = net w !! ws)
  ∧ (is_Some (active_connections (manager w) !! session_id) → r.1 = true).
Proof.
  intros r.
  set (w1 := match active_connections (manager w) !! session_id with
             | Some conns => foldl (close_client session_id) w (map_to_list conns)
             | None => w
             end).
  assert (Hm : active_connections (manager r.2) = active_connections (manager w1)
               ∧ client_channels (manager r.2) = client_channels (manager w1)
               ∧ session_results (manager r.2) = session_results (manager w1)
               ∧ transcription_sessions (manager r.2) = transcription_sessions (manager w1)
               ∧ chunk_channel_map (manager r.2) = chunk_channel_map (manager w1)
               ∧ net r.2 = net w1).
  { unfold r, terminate_session, w1.
    destruct (get_service session_id (manager w));
      destruct (active_connections (manager w) !! session_id); done. }
  destruct Hm as (Ha & Hch & Hr & Ht & Hk & Hn).
  unfold has_active_clients. rewrite Ha, Hch, Hr, Ht, Hk, Hn.
  fold (has_active_clients session_id (manager w1)).
  repeat split.
  - unfold w1. destruct (active_connections (manager w) !! session_id) as [conns|] eqn:Hc.
    + rewrite close_clients_manager. apply disconnect_each_no_clients.
      intros conns' cid Hc' [ws Hws].
      assert (conns' = conns) as -> by congruence.
      apply list_elem_of_fmap. exists (cid, ws). split; [done|].
      by apply elem_of_map_to_list.
    + unfold has_active_clients. by rewrite Hc.
  - unfold w1.
    destruct (active_connections (manager w) !! session_id); [|done].
    rewrite close_clients_manager. by apply disconnect_each_other.
  - unfold w1.
    destruct (active_connections (manager w) !! session_id); [|done].
    rewrite close_clients_manager. by apply disconnect_each_other.
  - unfold w1. destruct (active_connections (manager w) !! session_id); [|done].
    rewrite close_clients_manager. apply disconnect_each_keeps.
  - unfold w1. destruct (active_connections (manager w) !! session_id); [|done].
    rewrite close_clients_manager. apply disconnect_each_keeps.
  - unfold w1. destruct (active_connections (manager w) !! session_id); [|done].
    rewrite close_clients_manager. apply disconnect_each_keeps.
  - intros conns cid ws Hc Hws. unfold w1. rewrite Hc, close_clients_net.
    apply close_each_closed. left.
    apply list_elem_of_fmap. exists (cid, ws). split; [done|].
    by apply elem_of_map_to_list.
  - intros ws Hnot. unfold w1.
    destruct (active_connections (manager w) !! session_id) as [conns|] eqn:Hc; [|done].
    rewrite close_clients_net. apply close_each_elsewhere.
    intros Hin. apply list_elem_of_fmap in Hin as ([cid ws'] & -> & Hin).
    apply elem_of_map_to_list in Hin. by apply (Hnot conns cid).
  - intros [conns Hc]. unfold r, terminate_session. by rewrite Hc.
Qed.
